(** * atomvm_lib native functions (src/nifs/atomvm_lib.c)

    A shallow embedding of the five native functions that atomvm_lib
    registers with the AtomVM virtual machine: the RTC memory store
    ([nif_set_rtc_memory], [nif_get_rtc_memory]), the identity query
    ([nif_get_mac]), the digest ([nif_sha1]) and clock control
    ([nif_set_time_of_day]), together with the name lookup
    [atomvm_lib_get_nif].

    The C functions mutate three pieces of state: the calling [Context]
    (its heap), the two RTC globals [data_len] and [data], and the
    operating system (wall clock, [errno]).  They are written here in a
    small state-and-raise monad over a [Machine] record that holds the
    three. *)

From Stdlib Require Import String.
From Stdlib Require Import ZArith NArith List Bool Lia.
From Stdlib Require Import Strings.Byte.
Import ListNotations.

#[local] Set Warnings "-register-all".

Local Open Scope nat_scope.

(** ** Managed values *)

Inductive atom : Type :=
| OK_ATOM
| ERROR_ATOM
| BADARG_ATOM
| OUT_OF_MEMORY_ATOM
| OTHER_ATOM (index : nat).

(** A [term] is what the VM hands to a native function.  Only the shapes
    the five functions inspect are told apart; every other kind of value
    (pid, list, float, reference, ...) is [TOpaque]. *)
Inductive term : Type :=
| TAtom (a : atom)
| TInteger (z : Z)
| TBinary (bytes : list byte)
| TTuple (elements : list term)
| TOpaque (tag : nat).

Definition term_is_binary (t : term) : bool :=
  match t with TBinary _ => true | _ => false end.

Definition term_is_any_integer (t : term) : bool :=
  match t with TInteger _ => true | _ => false end.

Definition term_binary_size (t : term) : nat :=
  match t with TBinary bs => length bs | _ => 0 end.

Definition term_binary_data (t : term) : list byte :=
  match t with TBinary bs => bs | _ => [] end.

(** Two's complement reading of the low [bits] bits of [z]. *)
Definition wrap_signed (bits z : Z) : Z :=
  ((z + 2 ^ (bits - 1)) mod 2 ^ bits - 2 ^ (bits - 1))%Z.

Definition in_signed_range (bits z : Z) : Prop :=
  (- 2 ^ (bits - 1) <= z < 2 ^ (bits - 1))%Z.

(** [term_maybe_unbox_int64]: the integer of a small or boxed integer
    term, as an [avm_int64_t]. *)
Definition term_maybe_unbox_int64 (t : term) : Z :=
  match t with TInteger z => wrap_signed 64 z | _ => 0%Z end.

Definition term_from_int (z : Z) : term := TInteger z.

(** ** Machine state *)

(** The part of [Context] the functions touch: the heap, kept as the list
    of the objects built on it, newest first. *)
Record Context : Type := mkContext { heap : list term }.

(** [RTC_DATA_ATTR size_t data_len] and [RTC_DATA_ATTR char *data[...]]. *)
Record RtcMemory : Type := mkRtc { data_len : nat; data : list byte }.

Record timeval : Type := mkTimeval { tv_sec : Z; tv_usec : Z }.
Record timezone : Type := mkTimezone { tz_minuteswest : Z; tz_dsttime : Z }.

(** The operating system as seen through [settimeofday]: the wall clock,
    [errno], and the record of the calls made (newest first). *)
Record Os : Type := mkOs {
  wall_clock : timeval;
  errno : Z;
  settimeofday_calls : list (timeval * timezone)
}.

(** The six bytes of the factory MAC address burnt in eFuse. *)
Record Efuse : Type := mkEfuse {
  mac0 : byte; mac1 : byte; mac2 : byte; mac3 : byte; mac4 : byte; mac5 : byte
}.

Record Machine : Type := mkMachine {
  ctx : Context;
  rtc : RtcMemory;
  os : Os;
  efuse : Efuse
}.

Inductive MemoryGCResult : Type := MEMORY_GC_OK | MEMORY_GC_ERROR_FAILED_ALLOCATION.

(** What the build and the platform fix and this file does not define:
    the Kconfig constant, the width of [time_t], the VM's heap-size macros
    and its garbage collector entry point, the content of freshly reserved
    heap bytes, the mbedtls digest engine and the kernel's verdict on a
    requested clock value. *)
Record Platform : Type := mkPlatform {
  CONFIG_RTC_MEMORY_SIZE : nat;
  time_t_bits : Z;
  term_binary_heap_size : nat -> nat;
  TUPLE_SIZE : nat -> nat;
  memory_ensure_free : Context -> nat -> MemoryGCResult * Context;
  stale_byte : nat -> byte;
  (** input bytes, output buffer before the call; result code and bytes
      written to the output buffer *)
  mbedtls_sha1_ret : list byte -> list byte -> Z * list byte;
  (** [Some e]: the kernel refuses the value and sets [errno] to [e] *)
  settimeofday_refusal : Os -> timeval -> timezone -> option Z
}.

(** ** The monad of native functions

    A native function ends by returning a value or by raising an error
    with a reason; on the way it reads and writes the machine. *)

Inductive outcome (A : Type) : Type :=
| Return (a : A)
| Raise (reason : term).
Arguments Return {A} a.
Arguments Raise {A} reason.

Definition NifM (A : Type) : Type := Machine -> outcome A * Machine.

Definition ret {A} (a : A) : NifM A := fun m => (Return a, m).

Definition bind {A B} (c : NifM A) (k : A -> NifM B) : NifM B :=
  fun m =>
    match c m with
    | (Return a, m') => k a m'
    | (Raise r, m') => (Raise r, m')
    end.

Notation "x <- c ;; k" := (bind c (fun x => k))
  (at level 61, c at next level, right associativity).
Notation "c ;;; k" := (bind c (fun _ => k))
  (at level 61, right associativity).

(** Modelled from the spec: the macro [RAISE_ERROR] of the VM's headers,
    which are not part of this library.  The spec has failure signalled
    through a distinguished raise channel rather than a normal return.
    The source uses the macro as a statement of its own (lines 52, 66,
    83, 101, 108 and 135) and the function ends there, so the macro
    expands to a sequence of statements: the error class [ERROR_ATOM] is
    stored in register x[0], the reason in x[1], and the function returns
    the invalid term.  The registers are the raise channel; here the
    function stops and the reason given to the macro is what is raised. *)
Definition RAISE_ERROR {A} (error_type_atom : term) : NifM A :=
  fun m => (Raise error_type_atom, m).

(** Modelled from the spec: the same macro written after [return], as on
    line 140.  The operand of that [return] is the first statement of the
    expansion, the assignment of [ERROR_ATOM] to x[0], whose value is the
    atom [error]: the function returns that atom as an ordinary value.
    The rest of the expansion, which would store the reason and return
    the invalid term, is never reached, so the reason is neither raised
    nor returned. *)
Definition return_RAISE_ERROR (error_type_atom : term) : NifM term :=
  ret (TAtom ERROR_ATOM).

(** Modelled from the spec: the macro [VALIDATE_VALUE] of the VM's
    headers.  A value of the wrong shape is a [BadArgument], raised at the
    point of detection. *)
Definition VALIDATE_VALUE (value : term) (verify_function : term -> bool) : NifM unit :=
  if verify_function value then ret tt else RAISE_ERROR (TAtom BADARG_ATOM).

Definition when_ (b : bool) (c : NifM unit) : NifM unit :=
  if b then c else ret tt.

Definition get_rtc : NifM RtcMemory := fun m => (Return (rtc m), m).
Definition get_efuse : NifM Efuse := fun m => (Return (efuse m), m).
Definition get_os : NifM Os := fun m => (Return (os m), m).

Definition put_ctx (c : Context) : NifM unit :=
  fun m => (Return tt, mkMachine c (rtc m) (os m) (efuse m)).
Definition put_rtc (r : RtcMemory) : NifM unit :=
  fun m => (Return tt, mkMachine (ctx m) r (os m) (efuse m)).
Definition put_os (o : Os) : NifM unit :=
  fun m => (Return tt, mkMachine (ctx m) (rtc m) o (efuse m)).

(** [argv[0]]; the VM has checked the arity before the call. *)
Definition argv0 (argv : list term) : term := nth 0 argv (TOpaque 0).

(** The globals a call does not own: RTC memory and eFuse. *)
Definition same_rtc_efuse (m m' : Machine) : Prop :=
  rtc m' = rtc m /\ efuse m' = efuse m.

(** ** Memory primitives *)

(** [memcpy(dst, src, n)] on byte arrays: the first [n] bytes of [dst]
    are replaced by the first [n] bytes of [src]. *)
Definition memcpy (dst src : list byte) (n : nat) : list byte :=
  firstn n src ++ skipn n dst.

(** Writing [src] through a pointer to a buffer that holds [dst]: the
    buffer keeps its size. *)
Definition poke (dst src : list byte) : list byte :=
  firstn (length dst) (src ++ skipn (length src) dst).

(** A new object on the heap of the context. *)
Definition heap_alloc (t : term) : NifM unit :=
  fun m => put_ctx (mkContext (t :: heap (ctx m))) m.

(** The newest heap object is overwritten in place. *)
Definition heap_store (t : term) : NifM unit :=
  fun m => put_ctx (mkContext (t :: tl (heap (ctx m)))) m.

(** Modelled from the spec: [term_from_literal_binary(data, size, heap,
    global)] of the VM constructs a new managed byte buffer and copies
    into it the [size] bytes found at [data]. *)
Definition term_from_literal_binary (bytes : list byte) (size : nat) : NifM term :=
  let t := TBinary (firstn size bytes) in
  heap_alloc t ;;; ret t.

(** [term_alloc_tuple(size, heap)]: a tuple whose elements are still to
    be put. *)
Definition term_alloc_tuple (size : nat) : NifM term :=
  let t := TTuple (repeat (TOpaque 0) size) in
  heap_alloc t ;;; ret t.

Fixpoint replace_nth {A} (l : list A) (i : nat) (v : A) : list A :=
  match l, i with
  | [], _ => []
  | _ :: l', O => v :: l'
  | x :: l', S i' => x :: replace_nth l' i' v
  end.

(** [term_put_tuple_element(t, elem_index, put_value)] writes into the
    tuple, which is the newest heap object when the functions below use
    it. *)
Definition term_put_tuple_element (t : term) (elem_index : nat) (put_value : term)
  : NifM term :=
  match t with
  | TTuple es =>
      let t' := TTuple (replace_nth es elem_index put_value) in
      heap_store t' ;;; ret t'
  | _ => ret t
  end.

(** ** Formatting *)

Definition hex_digits : list byte := list_byte_of_string "0123456789abcdef".

Definition hex_digit (n : N) : byte := nth (N.to_nat n) hex_digits x00.

(** The conversion [%02x] applied to a [uint8_t]. *)
Definition fmt_02x (b : byte) : list byte :=
  let n := Byte.to_N b in
  [hex_digit (n / 16); hex_digit (n mod 16)].

(** [snprintf(buf, size, ...)]: at most [size - 1] characters and the
    terminating NUL. *)
Definition snprintf (size : nat) (formatted : list byte) : list byte :=
  firstn (size - 1) formatted ++ [x00].

Definition is_lower_hex (c : byte) : bool :=
  let n := Byte.to_N c in
  ((48 <=? n) && (n <=? 57) || (97 <=? n) && (n <=? 102))%N.

(** ** The reference digest

    SHA-1 as FIPS 180-4 defines it, on 32-bit words kept in [N].  This is
    the contract of the digest engine [mbedtls_sha1_ret], which belongs to
    mbedtls and not to this library. *)
Module SHA1.

Local Open Scope N_scope.

Definition w32 (x : N) : N := x mod 2 ^ 32.
Definition add32 (x y : N) : N := w32 (x + y).
Definition rotl (n x : N) : N :=
  w32 (N.lor (N.shiftl x n) (N.shiftr x (32 - n))).

Definition Ch (x y z : N) : N := N.lxor z (N.land x (N.lxor y z)).
Definition Parity (x y z : N) : N := N.lxor x (N.lxor y z).
Definition Maj (x y z : N) : N :=
  N.lor (N.land x y) (N.lor (N.land x z) (N.land y z)).

Definition f (t : nat) (x y z : N) : N :=
  if (t <? 20)%nat then Ch x y z
  else if (t <? 40)%nat then Parity x y z
  else if (t <? 60)%nat then Maj x y z
  else Parity x y z.

Definition K (t : nat) : N :=
  if (t <? 20)%nat then 0x5a827999
  else if (t <? 40)%nat then 0x6ed9eba1
  else if (t <? 60)%nat then 0x8f1bbcdc
  else 0xca62c1d6.

Record state : Type := mkState { h0 : N; h1 : N; h2 : N; h3 : N; h4 : N }.

Definition initial : state :=
  mkState 0x67452301 0xefcdab89 0x98badcfe 0x10325476 0xc3d2e1f0.

Definition byte_of_N (n : N) : byte :=
  match Byte.of_N (n mod 256) with Some b => b | None => x00 end.

(** Big-endian bytes of a word of [k] bytes. *)
Fixpoint be_bytes (k : nat) (x : N) : list byte :=
  match k with
  | O => []
  | S k' => byte_of_N (N.shiftr x (8 * N.of_nat k')) :: be_bytes k' x
  end.

Definition be_word (bs : list byte) : N :=
  fold_left (fun acc b => acc * 256 + Byte.to_N b) bs 0.

(** The message, the bit 1, zero bits up to 56 modulo 64 bytes, and the
    length in bits on 64 bits. *)
Definition pad (msg : list byte) : list byte :=
  let l := List.length msg in
  let k := ((64 - (l + 9) mod 64) mod 64)%nat in
  msg ++ x80 :: repeat x00 k ++ be_bytes 8 (8 * N.of_nat l).

(** The sixteen words of a block. *)
Fixpoint words (n : nat) (bs : list byte) : list N :=
  match n with
  | O => []
  | S n' => be_word (firstn 4 bs) :: words n' (skipn 4 bs)
  end.

(** The message schedule, newest word first: [rev_w] holds W(t-1) ... W(0). *)
Fixpoint schedule (n : nat) (rev_w : list N) : list N :=
  match n with
  | O => rev_w
  | S n' =>
      let w := rotl 1 (N.lxor (nth 2 rev_w 0)
                        (N.lxor (nth 7 rev_w 0)
                          (N.lxor (nth 13 rev_w 0) (nth 15 rev_w 0)))) in
      schedule n' (w :: rev_w)
  end.

Definition round (s : state) (tw : nat * N) : state :=
  let (t, w) := tw in
  let temp :=
    add32 (add32 (add32 (add32 (rotl 5 (h0 s)) (f t (h1 s) (h2 s) (h3 s)))
                        (h4 s)) (K t)) w in
  mkState temp (h0 s) (rotl 30 (h1 s)) (h2 s) (h3 s).

Definition compress (h : state) (block : list byte) : state :=
  let w := rev (schedule 64 (rev (words 16 block))) in
  let s := fold_left round (combine (seq 0 80) w) h in
  mkState (add32 (h0 h) (h0 s)) (add32 (h1 h) (h1 s)) (add32 (h2 h) (h2 s))
          (add32 (h3 h) (h3 s)) (add32 (h4 h) (h4 s)).

Fixpoint blocks (n : nat) (bs : list byte) (h : state) : state :=
  match n with
  | O => h
  | S n' => blocks n' (skipn 64 bs) (compress h (firstn 64 bs))
  end.

Definition digest (msg : list byte) : list byte :=
  let p := pad msg in
  let h := blocks (List.length p / 64) p initial in
  be_bytes 4 (h0 h) ++ be_bytes 4 (h1 h) ++ be_bytes 4 (h2 h) ++
  be_bytes 4 (h3 h) ++ be_bytes 4 (h4 h).

(** Two lowercase hexadecimal digits per byte. *)
Definition hex (bs : list byte) : string :=
  string_of_list_byte (flat_map fmt_02x bs).

End SHA1.

(** An engine that meets the contract: it reports success and writes the
    reference digest of the input. *)
Definition engine_is_reference (engine : list byte -> list byte -> Z * list byte) : Prop :=
  forall input out, engine input out = (0%Z, SHA1.digest input).

(** ** 64-bit arithmetic of [avm_int64_t] *)

Definition int64_div (a b : Z) : Z := wrap_signed 64 (Z.quot a b).
Definition int64_rem (a b : Z) : Z := wrap_signed 64 (Z.rem a b).
Definition int64_mul (a b : Z) : Z := wrap_signed 64 (a * b).

(** [suseconds_t] is a [long]. *)
Definition SUSECONDS_T_BITS : Z := 32.

Section Nifs.

Variable P : Platform.

(** The size of a pointer ([data] is an array of pointers to char) on the
    32-bit targets of the library. *)
Definition SIZEOF_POINTER : nat := 4.

(** [data] is declared as an array of [CONFIG_RTC_MEMORY_SIZE] pointers,
    so it spans that many times the size of a pointer, in bytes. *)
Definition DATA_BYTES : nat := CONFIG_RTC_MEMORY_SIZE P * SIZEOF_POINTER.

(** [memory_ensure_free(ctx, size) != MEMORY_GC_OK] guarded by
    [RAISE_ERROR(OUT_OF_MEMORY_ATOM)]. *)
Definition ensure_free_or_raise (size : nat) : NifM unit :=
  fun m =>
    match memory_ensure_free P (ctx m) size with
    | (MEMORY_GC_OK, c) => put_ctx c m
    | (MEMORY_GC_ERROR_FAILED_ALLOCATION, c) =>
        (put_ctx c ;;; RAISE_ERROR (TAtom OUT_OF_MEMORY_ATOM)) m
    end.

Definition heap_check_ok (c : Context) (size : nat) : Prop :=
  fst (memory_ensure_free P c size) = MEMORY_GC_OK.

(** ** RTC memory *)

Definition nif_set_rtc_memory (argv : list term) : NifM term :=
  let binary := argv0 argv in
  VALIDATE_VALUE binary term_is_binary ;;;
  let binary_len := term_binary_size binary in
  when_ (CONFIG_RTC_MEMORY_SIZE P <? binary_len)
        (RAISE_ERROR (TAtom BADARG_ATOM)) ;;;
  r <- get_rtc ;;
  put_rtc (mkRtc binary_len (data r)) ;;;
  r <- get_rtc ;;
  put_rtc (mkRtc (data_len r) (memcpy (data r) (term_binary_data binary) binary_len)) ;;;
  ret (TAtom OK_ATOM).

Definition nif_get_rtc_memory (argv : list term) : NifM term :=
  r <- get_rtc ;;
  ensure_free_or_raise (term_binary_heap_size P (data_len r)) ;;;
  r <- get_rtc ;;
  term_from_literal_binary (data r) (data_len r).

(** ** Identity query *)

Definition MAC_LENGTH : nat := 6.

(** [esp_efuse_mac_get_default(mac)] fills the six-byte array from eFuse. *)
Definition esp_efuse_mac_get_default : NifM (list byte) :=
  e <- get_efuse ;;
  ret [mac0 e; mac1 e; mac2 e; mac3 e; mac4 e; mac5 e].

Definition nif_get_mac (argv : list term) : NifM term :=
  mac <- esp_efuse_mac_get_default ;;
  ensure_free_or_raise (term_binary_heap_size P (2 * MAC_LENGTH)) ;;;
  let buf :=
    snprintf (2 * MAC_LENGTH + 1)
      (fmt_02x (nth 0 mac x00) ++ fmt_02x (nth 1 mac x00) ++
       fmt_02x (nth 2 mac x00) ++ fmt_02x (nth 3 mac x00) ++
       fmt_02x (nth 4 mac x00) ++ fmt_02x (nth 5 mac x00)) in
  term_from_literal_binary buf (2 * MAC_LENGTH).

(** ** Digest *)

Definition SHA1_LEN : nat := 20.

(** The bytes found in a freshly reserved block of [n] bytes. *)
Definition uninitialized (n : nat) : list byte := map (stale_byte P) (seq 0 n).

(** [term_create_uninitialized_binary(size, heap, global)]. *)
Definition term_create_uninitialized_binary (size : nat) : NifM term :=
  let t := TBinary (uninitialized size) in
  heap_alloc t ;;; ret t.

Definition nif_sha1 (argv : list term) : NifM term :=
  let binary := argv0 argv in
  VALIDATE_VALUE binary term_is_binary ;;;
  ensure_free_or_raise (term_binary_heap_size P SHA1_LEN) ;;;
  ret_ <- term_create_uninitialized_binary SHA1_LEN ;;
  let binary := argv0 argv in
  let engine :=
    mbedtls_sha1_ret P
      (firstn (term_binary_size binary) (term_binary_data binary))
      (term_binary_data ret_) in
  let res := fst engine in
  (* the engine wrote through [term_binary_data(ret)] *)
  let ret_ := TBinary (poke (term_binary_data ret_) (snd engine)) in
  heap_store ret_ ;;;
  when_ (negb (res =? 0)%Z) (RAISE_ERROR (TAtom BADARG_ATOM)) ;;;
  ret ret_.

(** ** Clock control *)

(** [settimeofday(&tp, &tz)]: 0 and the clock is set, or -1 and [errno]
    tells why.  Every call is recorded. *)
Definition settimeofday (tp : timeval) (tz : timezone) : NifM Z :=
  o <- get_os ;;
  match settimeofday_refusal P o tp tz with
  | None =>
      put_os (mkOs tp (errno o) ((tp, tz) :: settimeofday_calls o)) ;;;
      ret 0%Z
  | Some e =>
      put_os (mkOs (wall_clock o) e ((tp, tz) :: settimeofday_calls o)) ;;;
      ret (-1)%Z
  end.

(** The initialiser of [struct timeval tp]: the 64-bit quotient and
    remainder of C, converted to [time_t] and [suseconds_t]. *)
Definition timeval_of_ms (ms_since_unix_epoch : Z) : timeval :=
  mkTimeval
    (wrap_signed (time_t_bits P) (int64_div ms_since_unix_epoch 1000))
    (wrap_signed SUSECONDS_T_BITS
       (int64_mul (int64_rem ms_since_unix_epoch 1000) 1000)).

Definition nif_set_time_of_day (argv : list term) : NifM term :=
  VALIDATE_VALUE (argv0 argv) term_is_any_integer ;;;
  let ms_since_unix_epoch := term_maybe_unbox_int64 (argv0 argv) in
  let tp := timeval_of_ms ms_since_unix_epoch in
  let tz := mkTimezone 0 0 in
  res <- settimeofday tp tz ;;
  if negb (res =? 0)%Z then
    ensure_free_or_raise (TUPLE_SIZE P 2) ;;;
    error <- term_alloc_tuple 2 ;;
    error <- term_put_tuple_element error 0 (TAtom ERROR_ATOM) ;;
    o <- get_os ;;
    error <- term_put_tuple_element error 1 (term_from_int (errno o)) ;;
    return_RAISE_ERROR error
  else
    ret (TAtom OK_ATOM).

(** ** Registry *)

Inductive Nif : Type :=
| set_rtc_memory_nif
| get_rtc_memory_nif
| get_mac_nif
| sha1_nif
| set_time_of_day_nif.

Definition Nif_is_set (n : Nif) : bool :=
  match n with set_rtc_memory_nif => true | _ => false end.

Definition nif_ptr (n : Nif) : list term -> NifM term :=
  match n with
  | set_rtc_memory_nif => nif_set_rtc_memory
  | get_rtc_memory_nif => nif_get_rtc_memory
  | get_mac_nif => nif_get_mac
  | sha1_nif => nif_sha1
  | set_time_of_day_nif => nif_set_time_of_day
  end.

Definition atomvm_lib_get_nif (nifname : string) : option Nif :=
  if String.eqb "atomvm_lib:set_rtc_memory/1" nifname then Some set_rtc_memory_nif
  else if String.eqb "atomvm_lib:get_rtc_memory/0" nifname then Some get_rtc_memory_nif
  else if String.eqb "atomvm_lib:get_mac/0" nifname then Some get_mac_nif
  else if String.eqb "atomvm_lib:sha1/1" nifname then Some sha1_nif
  else if String.eqb "atomvm_lib:set_time_of_day/1" nifname then Some set_time_of_day_nif
  else None.

(** ** Runs of the machine *)

(** At boot [data_len] is 0 (its initialiser) and [data], which has no
    initialiser, is zero-filled. *)
Definition boot_rtc : RtcMemory := mkRtc 0 (repeat x00 DATA_BYTES).

Definition boot (m : Machine) : Prop := rtc m = boot_rtc.

(** One step is a call of one of the five functions, on any arguments, or
    any activity of the VM and of the operating system between two calls:
    these own the context and the clock, never the RTC globals nor eFuse. *)
Inductive step : Machine -> Machine -> Prop :=
| step_call (n : Nif) (argv : list term) (m : Machine) :
    step m (snd (nif_ptr n argv m))
| step_env (c : Context) (o : Os) (m : Machine) :
    step m (mkMachine c (rtc m) o (efuse m)).

Inductive steps : Machine -> Machine -> Prop :=
| steps_refl (m : Machine) : steps m m
| steps_cons (m1 m2 m3 : Machine) : steps m1 m2 -> step m2 m3 -> steps m1 m3.

Definition reachable (m : Machine) : Prop :=
  exists m0, boot m0 /\ steps m0 m.

End Nifs.

(** ** Concrete platforms

    An ESP32 build with a 64-byte store and a 64-bit [time_t]: the heap
    always has room, the digest engine is the reference one, and the
    kernel refuses a [timeval] whose microseconds are not in
    [0, 1000000) with [EINVAL]. *)
Definition EINVAL : Z := 22.

Definition esp32 : Platform :=
  mkPlatform 64 64
    (fun n => n / 4 + 2)
    (fun n => n + 1)
    (fun c _ => (MEMORY_GC_OK, c))
    (fun _ => x00)
    (fun input _ => (0%Z, SHA1.digest input))
    (fun _ tp _ =>
       if ((tv_usec tp <? 0) || (1000000 <=? tv_usec tp))%Z then Some EINVAL else None).

(** The same build with a digest engine whose hardware accelerator fails
    ([MBEDTLS_ERR_SHA1_HW_ACCEL_FAILED]) before writing anything. *)
Definition esp32_faulty_engine : Platform :=
  mkPlatform 64 64
    (fun n => n / 4 + 2)
    (fun n => n + 1)
    (fun c _ => (MEMORY_GC_OK, c))
    (fun _ => x00)
    (fun _ _ => ((-53)%Z, []))
    (fun _ _ _ => None).

Definition sample_efuse : Efuse := mkEfuse x24 x0a xc4 x00 xff x9e.

Definition epoch : timeval := mkTimeval 0 0.

(** A machine that has just booted on platform [P]. *)
Definition fresh (P : Platform) : Machine :=
  mkMachine (mkContext []) (boot_rtc P) (mkOs epoch 0 []) sample_efuse.

(** The same build when the collector cannot make room. *)
Definition esp32_no_heap : Platform :=
  mkPlatform 64 64
    (fun n => n / 4 + 2)
    (fun n => n + 1)
    (fun c _ => (MEMORY_GC_ERROR_FAILED_ALLOCATION, c))
    (fun _ => x00)
    (fun input _ => (0%Z, SHA1.digest input))
    (fun _ tp _ =>
       if ((tv_usec tp <? 0) || (1000000 <=? tv_usec tp))%Z then Some EINVAL else None).

(** The name under which each function is registered: the string literal
    compared in [atomvm_lib_get_nif] on the line that returns it. *)
Definition nif_name (n : Nif) : string :=
  match n with
  | set_rtc_memory_nif => "atomvm_lib:set_rtc_memory/1"
  | get_rtc_memory_nif => "atomvm_lib:get_rtc_memory/0"
  | get_mac_nif => "atomvm_lib:get_mac/0"
  | sha1_nif => "atomvm_lib:sha1/1"
  | set_time_of_day_nif => "atomvm_lib:set_time_of_day/1"
  end.

(** Reading two hexadecimal characters back, used to tell formatted
    bytes apart. *)
Definition hex_value (c : byte) : N :=
  let n := Byte.to_N c in
  (if n <? 58 then n - 48 else n - 87)%N.

Definition unhex (s : list byte) : byte :=
  match s with
  | [hi; lo] => SHA1.byte_of_N (16 * hex_value hi + hex_value lo)
  | _ => x00
  end.

(** A sequence of calls made by the VM, oldest first, each a registered
    function and its argument vector. *)
Fixpoint run_calls (P : Platform) (calls : list (Nif * list term)) (m : Machine)
  : Machine :=
  match calls with
  | [] => m
  | (n, argv) :: rest => run_calls P rest (snd (nif_ptr P n argv m))
  end.

(** A call that cannot pass the two tests of [nif_set_rtc_memory]: any
    call of another function, and a call of [set_rtc_memory] whose
    argument is not a binary or is longer than the store. *)
Definition not_an_accepted_set (P : Platform) (call : Nif * list term) : bool :=
  negb (Nif_is_set (fst call))
  || negb (term_is_binary (argv0 (snd call)))
  || (CONFIG_RTC_MEMORY_SIZE P <? term_binary_size (argv0 (snd call))).

(** * Properties *)

(** ** Running the monad *)

Ltac run :=
  unfold bind, ret, when_, VALIDATE_VALUE, RAISE_ERROR, get_rtc, get_efuse,
    get_os, put_ctx, put_rtc, put_os, heap_alloc, heap_store,
    term_from_literal_binary; simpl.

Lemma firstn_app_exact {A} (l r : list A) : firstn (length l) (l ++ r) = l.
Proof.
  induction l as [|x l IH]; simpl; [destruct r; reflexivity | now rewrite IH].
Qed.

Lemma memcpy_whole (dst src : list byte) :
  firstn (length src) (memcpy dst src (length src)) = src.
Proof.
  unfold memcpy. rewrite firstn_all. apply firstn_app_exact.
Qed.

Lemma ensure_free_ok (P : Platform) (size : nat) (m : Machine) :
  heap_check_ok P (ctx m) size ->
  ensure_free_or_raise P size m =
    (Return tt, mkMachine (snd (memory_ensure_free P (ctx m) size)) (rtc m) (os m) (efuse m)).
Proof.
  unfold heap_check_ok, ensure_free_or_raise.
  destruct (memory_ensure_free P (ctx m) size) as [[|] c]; simpl; intro H;
    [reflexivity | discriminate].
Qed.

Lemma ensure_free_rest (P : Platform) (size : nat) (m : Machine) :
  let m' := snd (ensure_free_or_raise P size m) in
  rtc m' = rtc m /\ os m' = os m /\ efuse m' = efuse m.
Proof.
  unfold ensure_free_or_raise.
  destruct (memory_ensure_free P (ctx m) size) as [[|] c]; run; auto.
Qed.

(** What [nif_set_rtc_memory] does on a binary that fits. *)
Lemma set_rtc_memory_accepts (P : Platform) (b : list byte) (m : Machine) :
  length b <= CONFIG_RTC_MEMORY_SIZE P ->
  nif_set_rtc_memory P [TBinary b] m =
    (Return (TAtom OK_ATOM),
     mkMachine (ctx m) (mkRtc (length b) (memcpy (data (rtc m)) b (length b)))
               (os m) (efuse m)).
Proof.
  intro Hfit. unfold nif_set_rtc_memory. run.
  apply Nat.ltb_ge in Hfit. rewrite Hfit. reflexivity.
Qed.

(** What [nif_get_rtc_memory] returns when the heap has room. *)
Lemma get_rtc_memory_returns (P : Platform) (argv : list term) (m : Machine) :
  heap_check_ok P (ctx m) (term_binary_heap_size P (data_len (rtc m))) ->
  fst (nif_get_rtc_memory P argv m) =
    Return (TBinary (firstn (data_len (rtc m)) (data (rtc m)))).
Proof.
  intro Hok. unfold nif_get_rtc_memory. run.
  rewrite (ensure_free_ok _ _ _ Hok). reflexivity.
Qed.

(** ** Registry *)

Lemma get_nif_resolves (n : Nif) :
  exists name, atomvm_lib_get_nif name = Some n.
Proof.
  destruct n; eexists;
    [ instantiate (1 := "atomvm_lib:set_rtc_memory/1"%string)
    | instantiate (1 := "atomvm_lib:get_rtc_memory/0"%string)
    | instantiate (1 := "atomvm_lib:get_mac/0"%string)
    | instantiate (1 := "atomvm_lib:sha1/1"%string)
    | instantiate (1 := "atomvm_lib:set_time_of_day/1"%string) ];
    reflexivity.
Qed.

Lemma get_nif_unknown : atomvm_lib_get_nif "atomvm_lib:reboot/0" = None.
Proof. reflexivity. Qed.

(** ** What each function leaves alone *)

Ltac split_check :=
  match goal with
  | |- context [ensure_free_or_raise ?P ?size ?m] =>
      let H := fresh "Hrest" in
      pose proof (ensure_free_rest P size m) as H;
      destruct (ensure_free_or_raise P size m) as [[[]|?] ?];
      simpl in H; destruct H as (? & ? & ?); simpl
  end.

Lemma get_rtc_memory_frame (P : Platform) (argv : list term) (m : Machine) :
  same_rtc_efuse m (snd (nif_get_rtc_memory P argv m)).
Proof.
  unfold nif_get_rtc_memory, same_rtc_efuse. run.
  split_check; auto.
Qed.

Lemma get_mac_frame (P : Platform) (argv : list term) (m : Machine) :
  same_rtc_efuse m (snd (nif_get_mac P argv m)).
Proof.
  unfold nif_get_mac, esp_efuse_mac_get_default, same_rtc_efuse. run.
  split_check; auto.
Qed.

Lemma sha1_frame (P : Platform) (argv : list term) (m : Machine) :
  same_rtc_efuse m (snd (nif_sha1 P argv m)).
Proof.
  unfold nif_sha1, term_create_uninitialized_binary, same_rtc_efuse. run.
  destruct (term_is_binary (argv0 argv)); simpl; auto.
  split_check; auto.
  match goal with |- context [negb ?c] => destruct c end; simpl; auto.
Qed.

Lemma set_time_of_day_frame (P : Platform) (argv : list term) (m : Machine) :
  same_rtc_efuse m (snd (nif_set_time_of_day P argv m)).
Proof.
  unfold nif_set_time_of_day, settimeofday, term_alloc_tuple,
    term_put_tuple_element, same_rtc_efuse. run.
  destruct (term_is_any_integer (argv0 argv)); simpl; auto.
  destruct (settimeofday_refusal P (os m) _ _) as [e|]; simpl; auto.
  split_check; auto.
Qed.

Lemma set_rtc_memory_frame (P : Platform) (argv : list term) (m : Machine) :
  let m' := snd (nif_set_rtc_memory P argv m) in
  ctx m' = ctx m /\ os m' = os m /\ efuse m' = efuse m /\
  (data_len (rtc m) <= CONFIG_RTC_MEMORY_SIZE P ->
   data_len (rtc m') <= CONFIG_RTC_MEMORY_SIZE P).
Proof.
  unfold nif_set_rtc_memory. run.
  destruct (term_is_binary (argv0 argv)); simpl; auto.
  destruct (CONFIG_RTC_MEMORY_SIZE P <? term_binary_size (argv0 argv)) eqn:E;
    simpl; auto.
  apply Nat.ltb_ge in E. auto.
Qed.

(** Only [set_rtc_memory] writes the RTC globals. *)
Lemma other_nifs_keep_rtc (P : Platform) (n : Nif) (argv : list term) (m : Machine) :
  n <> set_rtc_memory_nif -> rtc (snd (nif_ptr P n argv m)) = rtc m.
Proof.
  destruct n; simpl; intro Hn; try congruence.
  - apply get_rtc_memory_frame.
  - apply get_mac_frame.
  - apply sha1_frame.
  - apply set_time_of_day_frame.
Qed.

Lemma step_efuse (P : Platform) (m m' : Machine) :
  step P m m' -> efuse m' = efuse m.
Proof.
  intros [n argv m0 | c o m0]; [|reflexivity].
  destruct n; simpl.
  - apply set_rtc_memory_frame.
  - apply get_rtc_memory_frame.
  - apply get_mac_frame.
  - apply sha1_frame.
  - apply set_time_of_day_frame.
Qed.

Lemma steps_efuse (P : Platform) (m m' : Machine) :
  steps P m m' -> efuse m' = efuse m.
Proof.
  induction 1 as [|m1 m2 m3 _ IH Hstep]; [reflexivity|].
  rewrite (step_efuse _ _ _ Hstep). exact IH.
Qed.

Lemma step_bound (P : Platform) (m m' : Machine) :
  step P m m' ->
  data_len (rtc m) <= CONFIG_RTC_MEMORY_SIZE P ->
  data_len (rtc m') <= CONFIG_RTC_MEMORY_SIZE P.
Proof.
  intros [n argv m0 | c o m0] Hle; [|exact Hle].
  destruct (Nif_is_set n) eqn:E.
  - destruct n; try discriminate. simpl. now apply set_rtc_memory_frame.
  - rewrite other_nifs_keep_rtc; [exact Hle | intros ->; discriminate].
Qed.

(** ** RTC memory *)

(** C1.  Round trip: for every byte buffer [b] no longer than
    [CONFIG_RTC_MEMORY_SIZE], [set_rtc_memory(b)] returns [ok], and a
    [get_rtc_memory()] that follows it, whatever the VM and the operating
    system did to the context and the clock in between, returns a binary
    byte-equal to [b] as soon as its heap-space check succeeds. *)
Theorem set_then_get_roundtrip
    (P : Platform) (b : list byte) (m m' : Machine) (argv : list term) :
  length b <= CONFIG_RTC_MEMORY_SIZE P ->
  rtc m' = rtc (snd (nif_set_rtc_memory P [TBinary b] m)) ->
  heap_check_ok P (ctx m') (term_binary_heap_size P (length b)) ->
  fst (nif_set_rtc_memory P [TBinary b] m) = Return (TAtom OK_ATOM) /\
  fst (nif_get_rtc_memory P argv m') = Return (TBinary b).
Proof.
  intros Hfit Hrtc Hok.
  rewrite (set_rtc_memory_accepts P b m Hfit) in *. simpl in Hrtc.
  split; [reflexivity|].
  rewrite get_rtc_memory_returns; rewrite Hrtc; simpl; [|exact Hok].
  now rewrite memcpy_whole.
Qed.

Lemma set_then_get_roundtrip_witness :
  let b := [x68; x65; x6c; x6c; x6f] in
  let m' := snd (nif_set_rtc_memory esp32 [TBinary b] (fresh esp32)) in
  length b <= CONFIG_RTC_MEMORY_SIZE esp32 /\
  rtc m' = rtc (snd (nif_set_rtc_memory esp32 [TBinary b] (fresh esp32))) /\
  heap_check_ok esp32 (ctx m') (term_binary_heap_size esp32 (length b)) /\
  fst (nif_set_rtc_memory esp32 [TBinary b] (fresh esp32)) = Return (TAtom OK_ATOM) /\
  fst (nif_get_rtc_memory esp32 [] m') = Return (TBinary b).
Proof.
  intros b m'.
  assert (Hfit : length b <= CONFIG_RTC_MEMORY_SIZE esp32) by (simpl; lia).
  assert (Hok : heap_check_ok esp32 (ctx m') (term_binary_heap_size esp32 (length b)))
    by reflexivity.
  split; [exact Hfit|]. split; [reflexivity|]. split; [exact Hok|].
  exact (set_then_get_roundtrip esp32 b (fresh esp32) m' [] Hfit eq_refl Hok).
Defined.

(** C2.  Rejection is atomic: for every byte buffer [b] longer than
    [CONFIG_RTC_MEMORY_SIZE], [set_rtc_memory(b)] raises [badarg] and the
    whole machine, hence the stored bytes and the stored length, is as it
    was before the call. *)
Theorem set_rtc_memory_rejects_oversize
    (P : Platform) (b : list byte) (m : Machine) :
  CONFIG_RTC_MEMORY_SIZE P < length b ->
  nif_set_rtc_memory P [TBinary b] m = (Raise (TAtom BADARG_ATOM), m) /\
  data (rtc (snd (nif_set_rtc_memory P [TBinary b] m))) = data (rtc m) /\
  data_len (rtc (snd (nif_set_rtc_memory P [TBinary b] m))) = data_len (rtc m).
Proof.
  intro Hbig.
  assert (E : nif_set_rtc_memory P [TBinary b] m = (Raise (TAtom BADARG_ATOM), m)).
  { unfold nif_set_rtc_memory. run.
    apply Nat.ltb_lt in Hbig. rewrite Hbig. reflexivity. }
  rewrite E. auto.
Qed.

Lemma set_rtc_memory_rejects_oversize_witness :
  let b := repeat x41 65 in
  let m := snd (nif_set_rtc_memory esp32 [TBinary [x01; x02]] (fresh esp32)) in
  CONFIG_RTC_MEMORY_SIZE esp32 < length b /\
  nif_set_rtc_memory esp32 [TBinary b] m = (Raise (TAtom BADARG_ATOM), m) /\
  data_len (rtc (snd (nif_set_rtc_memory esp32 [TBinary b] m))) = 2.
Proof.
  intros b m.
  assert (Hbig : CONFIG_RTC_MEMORY_SIZE esp32 < length b) by (simpl; lia).
  destruct (set_rtc_memory_rejects_oversize esp32 b m Hbig) as (E & _ & Hlen).
  split; [exact Hbig|]. split; [exact E|].
  rewrite Hlen. reflexivity.
Defined.

Lemma memcpy_length (dst src : list byte) :
  length src <= length dst -> length (memcpy dst src (length src)) = length dst.
Proof.
  intro H. unfold memcpy. rewrite length_app, length_firstn, length_skipn. lia.
Qed.

(** The copy of line 55 stays inside the array: [data] keeps its size. *)
Lemma set_rtc_memory_data_size (P : Platform) (argv : list term) (m : Machine) :
  length (data (rtc m)) = DATA_BYTES P ->
  length (data (rtc (snd (nif_set_rtc_memory P argv m)))) = DATA_BYTES P.
Proof.
  intro Hsize. unfold nif_set_rtc_memory.
  destruct (argv0 argv) as [a|z|bs|es|tag]; run; try exact Hsize.
  destruct (CONFIG_RTC_MEMORY_SIZE P <? length bs) eqn:E; simpl; [exact Hsize|].
  apply Nat.ltb_ge in E. rewrite memcpy_length; [exact Hsize|].
  rewrite Hsize. unfold DATA_BYTES, SIZEOF_POINTER. lia.
Qed.

Lemma rtc_data_size (P : Platform) (m : Machine) :
  reachable P m -> length (data (rtc m)) = DATA_BYTES P.
Proof.
  intros (m0 & Hboot & Hsteps).
  induction Hsteps as [m0|m0 m1 m2 _ IH Hstep].
  - unfold boot in Hboot. rewrite Hboot. apply repeat_length.
  - specialize (IH Hboot). destruct Hstep as [n argv m1 | c o m1]; [|exact IH].
    destruct (Nif_is_set n) eqn:E.
    + destruct n; try discriminate. now apply set_rtc_memory_data_size.
    + rewrite other_nifs_keep_rtc; [exact IH | intros ->; discriminate].
Qed.

(** C3.  In every state [m] the machine can reach from boot, through calls
    of the five functions on arbitrary arguments and arbitrary activity of
    the VM and the operating system, [data_len <= CONFIG_RTC_MEMORY_SIZE];
    the length is 0 when [m] is a boot state, and whichever of the five
    functions is called next, on whatever arguments, the bound holds
    after the call. *)
Theorem data_len_bounded (P : Platform) (m : Machine) :
  reachable P m ->
  data_len (rtc m) <= CONFIG_RTC_MEMORY_SIZE P /\
  (boot P m -> data_len (rtc m) = 0) /\
  (forall (n : Nif) (argv : list term),
     data_len (rtc (snd (nif_ptr P n argv m))) <= CONFIG_RTC_MEMORY_SIZE P).
Proof.
  intros (m0 & Hboot & Hsteps).
  assert (Hle : data_len (rtc m) <= CONFIG_RTC_MEMORY_SIZE P).
  { induction Hsteps as [m0|m0 m1 m2 _ IH Hstep].
    - unfold boot in Hboot. rewrite Hboot. simpl. lia.
    - apply (step_bound _ _ _ Hstep). exact (IH Hboot). }
  split; [exact Hle|]. split.
  - unfold boot. intros ->. reflexivity.
  - intros n argv. exact (step_bound _ _ _ (step_call P n argv m) Hle).
Qed.

Lemma data_len_bounded_witness :
  let m1 := snd (nif_set_rtc_memory esp32 [TBinary [x01; x02; x03]] (fresh esp32)) in
  let m2 := snd (nif_set_rtc_memory esp32 [TBinary (repeat xff 100)] m1) in
  reachable esp32 m2 /\ data_len (rtc m2) = 3 /\
  data_len (rtc m2) <= CONFIG_RTC_MEMORY_SIZE esp32.
Proof.
  intros m1 m2.
  assert (R : reachable esp32 m2).
  { exists (fresh esp32). split; [reflexivity|].
    apply steps_cons with (m2 := m1).
    - apply steps_cons with (m2 := fresh esp32); [apply steps_refl|].
      exact (step_call esp32 set_rtc_memory_nif [TBinary [x01; x02; x03]] (fresh esp32)).
    - exact (step_call esp32 set_rtc_memory_nif [TBinary (repeat xff 100)] m1). }
  split; [exact R|]. split; [reflexivity|].
  exact (proj1 (data_len_bounded esp32 m2 R)).
Defined.

(** C4.  In the boot state, that is as long as no [set_rtc_memory] call
    has written the RTC globals (no other step writes them, see
    [other_nifs_keep_rtc]), [get_rtc_memory()] passes [data_len = 0] to the
    heap-space check and, the check succeeding, returns a binary of zero
    bytes. *)
Theorem get_before_set_is_empty (P : Platform) (argv : list term) (m : Machine) :
  boot P m ->
  heap_check_ok P (ctx m) (term_binary_heap_size P 0) ->
  fst (nif_get_rtc_memory P argv m) = Return (TBinary []) /\
  term_binary_size (TBinary []) = 0.
Proof.
  intros Hboot Hok. unfold boot in Hboot.
  rewrite get_rtc_memory_returns; rewrite Hboot; simpl; auto.
Qed.

Lemma get_before_set_is_empty_witness :
  boot esp32 (fresh esp32) /\
  heap_check_ok esp32 (ctx (fresh esp32)) (term_binary_heap_size esp32 0) /\
  fst (nif_get_rtc_memory esp32 [] (fresh esp32)) = Return (TBinary []).
Proof.
  split; [reflexivity|]. split; [reflexivity|].
  exact (proj1 (get_before_set_is_empty esp32 [] (fresh esp32) eq_refl eq_refl)).
Defined.

(** ** Digest *)

Lemma be_bytes_length (k : nat) (x : N) : length (SHA1.be_bytes k x) = k.
Proof. induction k as [|k IH]; simpl; [reflexivity | now rewrite IH]. Qed.

Lemma digest_length (msg : list byte) : length (SHA1.digest msg) = SHA1_LEN.
Proof.
  unfold SHA1.digest. cbv zeta.
  repeat rewrite length_app. repeat rewrite be_bytes_length. reflexivity.
Qed.

Lemma uninitialized_length (P : Platform) (n : nat) : length (uninitialized P n) = n.
Proof. unfold uninitialized. now rewrite length_map, length_seq. Qed.

Lemma poke_length (dst src : list byte) : length (poke dst src) = length dst.
Proof.
  unfold poke. rewrite length_firstn, length_app, length_skipn. lia.
Qed.

Lemma poke_same_size (dst src : list byte) :
  length src = length dst -> poke dst src = src.
Proof.
  intro E. unfold poke. rewrite (skipn_all2 dst) by lia.
  rewrite app_nil_r, <- E. apply firstn_all.
Qed.

(** The outcome of [nif_sha1] on a binary once the heap-space check has
    passed: the engine decides. *)
Lemma sha1_after_check (P : Platform) (b : list byte) (m : Machine) :
  heap_check_ok P (ctx m) (term_binary_heap_size P SHA1_LEN) ->
  let engine := mbedtls_sha1_ret P b (uninitialized P SHA1_LEN) in
  let out := TBinary (poke (uninitialized P SHA1_LEN) (snd engine)) in
  let c := snd (memory_ensure_free P (ctx m) (term_binary_heap_size P SHA1_LEN)) in
  nif_sha1 P [TBinary b] m =
    (if (fst engine =? 0)%Z then Return out else Raise (TAtom BADARG_ATOM),
     mkMachine (mkContext (out :: heap c)) (rtc m) (os m) (efuse m)).
Proof.
  intros Hok engine out c.
  unfold nif_sha1, term_create_uninitialized_binary. run.
  rewrite (ensure_free_ok _ _ _ Hok). simpl.
  rewrite firstn_all. fold engine. fold out. fold c.
  destruct (fst engine =? 0)%Z; reflexivity.
Qed.

(** C5.  With a digest engine that meets its contract, and the heap-space
    check succeeding, [sha1(b)] returns for every byte buffer [b] a binary
    of exactly 20 bytes that is the reference SHA-1 digest of [b]; the
    result is the same in any two machine states (no dependence on earlier
    calls); and the reference digest of the empty input is
    da39a3ee5e6b4b0d3255bfef95601890afd80709. *)
Theorem sha1_returns_reference_digest
    (P : Platform) (b : list byte) (m m' : Machine) :
  engine_is_reference (mbedtls_sha1_ret P) ->
  heap_check_ok P (ctx m) (term_binary_heap_size P SHA1_LEN) ->
  heap_check_ok P (ctx m') (term_binary_heap_size P SHA1_LEN) ->
  fst (nif_sha1 P [TBinary b] m) = Return (TBinary (SHA1.digest b)) /\
  length (SHA1.digest b) = 20 /\
  fst (nif_sha1 P [TBinary b] m') = fst (nif_sha1 P [TBinary b] m) /\
  SHA1.hex (SHA1.digest []) = "da39a3ee5e6b4b0d3255bfef95601890afd80709"%string.
Proof.
  intros Href Hok Hok'.
  assert (E : forall m0,
             heap_check_ok P (ctx m0) (term_binary_heap_size P SHA1_LEN) ->
             fst (nif_sha1 P [TBinary b] m0) = Return (TBinary (SHA1.digest b))).
  { intros m0 H0. rewrite (sha1_after_check P b m0 H0). simpl.
    rewrite Href. simpl.
    rewrite poke_same_size; [reflexivity|].
    now rewrite digest_length, uninitialized_length. }
  split; [exact (E m Hok)|].
  split; [apply digest_length|].
  split; [now rewrite (E m Hok), (E m' Hok')|].
  vm_compute. reflexivity.
Qed.

Lemma sha1_returns_reference_digest_witness :
  let abc := [x61; x62; x63] in
  let m' := snd (nif_sha1 esp32 [TBinary abc] (fresh esp32)) in
  engine_is_reference (mbedtls_sha1_ret esp32) /\
  heap_check_ok esp32 (ctx (fresh esp32)) (term_binary_heap_size esp32 SHA1_LEN) /\
  heap_check_ok esp32 (ctx m') (term_binary_heap_size esp32 SHA1_LEN) /\
  fst (nif_sha1 esp32 [TBinary abc] (fresh esp32)) = Return (TBinary (SHA1.digest abc)) /\
  SHA1.hex (SHA1.digest abc) = "a9993e364706816aba3e25717850c26c9cd0d89d"%string /\
  fst (nif_sha1 esp32 [TBinary abc] m') = fst (nif_sha1 esp32 [TBinary abc] (fresh esp32)).
Proof.
  intros abc m'.
  assert (Href : engine_is_reference (mbedtls_sha1_ret esp32))
    by (intros input out; reflexivity).
  assert (Hok : heap_check_ok esp32 (ctx (fresh esp32))
                  (term_binary_heap_size esp32 SHA1_LEN)) by reflexivity.
  assert (Hok' : heap_check_ok esp32 (ctx m') (term_binary_heap_size esp32 SHA1_LEN))
    by reflexivity.
  destruct (sha1_returns_reference_digest esp32 abc (fresh esp32) m' Href Hok Hok')
    as (E1 & _ & E2 & _).
  split; [exact Href|]. split; [exact Hok|]. split; [exact Hok'|].
  split; [exact E1|]. split; [vm_compute; reflexivity | exact E2].
Defined.

(** C10.  When the digest engine reports a failure on the input, [sha1]
    raises [badarg] in a state whose heap holds, on top of the heap the
    space check left, the 20-byte binary built for the output: that heap
    is not the one the check left, and the binary is not returned. *)
Theorem sha1_engine_failure_leaves_binary
    (P : Platform) (b : list byte) (m : Machine) :
  heap_check_ok P (ctx m) (term_binary_heap_size P SHA1_LEN) ->
  fst (mbedtls_sha1_ret P b (uninitialized P SHA1_LEN)) <> 0%Z ->
  let checked := snd (memory_ensure_free P (ctx m) (term_binary_heap_size P SHA1_LEN)) in
  exists buf,
    fst (nif_sha1 P [TBinary b] m) = Raise (TAtom BADARG_ATOM) /\
    heap (ctx (snd (nif_sha1 P [TBinary b] m))) = TBinary buf :: heap checked /\
    length buf = 20 /\
    heap (ctx (snd (nif_sha1 P [TBinary b] m))) <> heap checked.
Proof.
  intros Hok Hfail checked.
  exists (poke (uninitialized P SHA1_LEN)
               (snd (mbedtls_sha1_ret P b (uninitialized P SHA1_LEN)))).
  rewrite (sha1_after_check P b m Hok). simpl. fold checked.
  apply Z.eqb_neq in Hfail. rewrite Hfail.
  split; [reflexivity|]. split; [reflexivity|].
  split; [now rewrite poke_length, uninitialized_length|].
  intro E. apply (f_equal (@length term)) in E. simpl in E. lia.
Qed.

Lemma sha1_engine_failure_leaves_binary_witness :
  let P := esp32_faulty_engine in
  let b := [x61; x62; x63] in
  heap_check_ok P (ctx (fresh P)) (term_binary_heap_size P SHA1_LEN) /\
  fst (mbedtls_sha1_ret P b (uninitialized P SHA1_LEN)) <> 0%Z /\
  exists buf,
    fst (nif_sha1 P [TBinary b] (fresh P)) = Raise (TAtom BADARG_ATOM) /\
    heap (ctx (snd (nif_sha1 P [TBinary b] (fresh P)))) = [TBinary buf] /\
    length buf = 20.
Proof.
  intros P b.
  assert (Hok : heap_check_ok P (ctx (fresh P)) (term_binary_heap_size P SHA1_LEN))
    by reflexivity.
  assert (Hfail : fst (mbedtls_sha1_ret P b (uninitialized P SHA1_LEN)) <> 0%Z)
    by (simpl; lia).
  split; [exact Hok|]. split; [exact Hfail|].
  destruct (sha1_engine_failure_leaves_binary P b (fresh P) Hok Hfail)
    as (buf & E1 & E2 & E3 & _).
  exists buf. split; [exact E1|]. split; [exact E2 | exact E3].
Defined.

(** ** Identity query *)

Lemma fmt_02x_lower_hex (b : byte) :
  forallb is_lower_hex (fmt_02x b) = true.
Proof. destruct b; vm_compute; reflexivity. Qed.

(** The twelve characters [nif_get_mac] formats from the eFuse bytes. *)
Lemma get_mac_returns (P : Platform) (argv : list term) (m : Machine) :
  heap_check_ok P (ctx m) (term_binary_heap_size P (2 * MAC_LENGTH)) ->
  let e := efuse m in
  fst (nif_get_mac P argv m) =
    Return (TBinary (fmt_02x (mac0 e) ++ fmt_02x (mac1 e) ++ fmt_02x (mac2 e) ++
                     fmt_02x (mac3 e) ++ fmt_02x (mac4 e) ++ fmt_02x (mac5 e))).
Proof.
  intros Hok e. unfold nif_get_mac, esp_efuse_mac_get_default. run.
  change (2 * MAC_LENGTH) with 12 in Hok.
  rewrite (ensure_free_ok _ _ _ Hok). reflexivity.
Qed.

(** C9.  The heap-space check succeeding, [get_mac()] returns a binary of
    exactly 12 characters, each of them in [0-9a-f]; and a later call in
    the same boot, after any number of steps of the machine, returns the
    same 12 characters. *)
Theorem get_mac_twelve_hex_stable
    (P : Platform) (argv argv' : list term) (m m' : Machine) :
  steps P m m' ->
  heap_check_ok P (ctx m) (term_binary_heap_size P (2 * MAC_LENGTH)) ->
  heap_check_ok P (ctx m') (term_binary_heap_size P (2 * MAC_LENGTH)) ->
  exists s,
    fst (nif_get_mac P argv m) = Return (TBinary s) /\
    length s = 12 /\
    forallb is_lower_hex s = true /\
    fst (nif_get_mac P argv' m') = Return (TBinary s).
Proof.
  intros Hsteps Hok Hok'.
  eexists. split; [apply (get_mac_returns P argv m Hok)|].
  split; [reflexivity|].
  split.
  - repeat rewrite forallb_app. repeat rewrite fmt_02x_lower_hex. reflexivity.
  - rewrite (get_mac_returns P argv' m' Hok').
    now rewrite (steps_efuse _ _ _ Hsteps).
Qed.

Lemma get_mac_twelve_hex_stable_witness :
  let m := fresh esp32 in
  let m' := snd (nif_set_time_of_day esp32 [TInteger 1700000000000]
                   (snd (nif_get_mac esp32 [] m))) in
  steps esp32 m m' /\
  heap_check_ok esp32 (ctx m) (term_binary_heap_size esp32 (2 * MAC_LENGTH)) /\
  heap_check_ok esp32 (ctx m') (term_binary_heap_size esp32 (2 * MAC_LENGTH)) /\
  exists s,
    fst (nif_get_mac esp32 [] m) = Return (TBinary s) /\
    s = list_byte_of_string "240ac400ff9e" /\
    fst (nif_get_mac esp32 [] m') = Return (TBinary s).
Proof.
  intros m m'.
  assert (Hsteps : steps esp32 m m').
  { apply steps_cons with (m2 := snd (nif_get_mac esp32 [] m)).
    - apply steps_cons with (m2 := m); [apply steps_refl|].
      exact (step_call esp32 get_mac_nif [] m).
    - exact (step_call esp32 set_time_of_day_nif [TInteger 1700000000000]
               (snd (nif_get_mac esp32 [] m))). }
  assert (Hok : heap_check_ok esp32 (ctx m)
                  (term_binary_heap_size esp32 (2 * MAC_LENGTH))) by reflexivity.
  assert (Hok' : heap_check_ok esp32 (ctx m')
                   (term_binary_heap_size esp32 (2 * MAC_LENGTH))) by reflexivity.
  split; [exact Hsteps|]. split; [exact Hok|]. split; [exact Hok'|].
  destruct (get_mac_twelve_hex_stable esp32 [] [] m m' Hsteps Hok Hok')
    as (s & E1 & _ & _ & E2).
  exists s. split; [exact E1|]. split; [|exact E2].
  assert (E : Return (TBinary s) =
              Return (A := term) (TBinary (list_byte_of_string "240ac400ff9e")))
    by (rewrite <- E1; vm_compute; reflexivity).
  now injection E.
Defined.

(** ** Clock control *)

Lemma wrap_signed_in_range (bits z : Z) :
  in_signed_range bits z -> wrap_signed bits z = z.
Proof.
  unfold in_signed_range, wrap_signed. intro H.
  assert (Hb : (1 <= bits)%Z).
  { destruct (Z_lt_le_dec bits 1) as [Hlt|]; [|assumption].
    rewrite (Z.pow_neg_r 2 (bits - 1)) in H by lia. lia. }
  assert (E : (2 ^ bits = 2 * 2 ^ (bits - 1))%Z).
  { rewrite <- Z.pow_succ_r by lia. f_equal. lia. }
  rewrite Z.mod_small by lia. lia.
Qed.

(** Quotient and remainder by 1000 of a 64-bit value, and the remainder
    times 1000, need no wrap-around. *)
Lemma int64_split_exact (ms : Z) :
  in_signed_range 64 ms ->
  int64_div ms 1000 = Z.quot ms 1000 /\
  wrap_signed SUSECONDS_T_BITS (int64_mul (int64_rem ms 1000) 1000)
    = (Z.rem ms 1000 * 1000)%Z.
Proof.
  unfold in_signed_range, int64_div, int64_mul, int64_rem, SUSECONDS_T_BITS.
  intro H. change (2 ^ (64 - 1))%Z with 9223372036854775808%Z in H.
  pose proof (Z.quot_rem' ms 1000) as Hqr.
  assert (Hr : (-1000 < Z.rem ms 1000 < 1000)%Z).
  { pose proof (Z.rem_bound_abs ms 1000). lia. }
  assert (Hq : in_signed_range 64 (Z.quot ms 1000)).
  { unfold in_signed_range. change (2 ^ (64 - 1))%Z with 9223372036854775808%Z. lia. }
  split.
  - now apply wrap_signed_in_range.
  - rewrite (wrap_signed_in_range 64 (Z.rem ms 1000)).
    + rewrite (wrap_signed_in_range 64).
      * apply wrap_signed_in_range. unfold in_signed_range.
        change (2 ^ (32 - 1))%Z with 2147483648%Z. lia.
      * unfold in_signed_range.
        change (2 ^ (64 - 1))%Z with 9223372036854775808%Z. lia.
    + unfold in_signed_range.
      change (2 ^ (64 - 1))%Z with 9223372036854775808%Z. lia.
Qed.

(** The run of [nif_set_time_of_day] on an integer, up to the outcome of
    the OS call. *)
Lemma set_time_of_day_calls_os (P : Platform) (z : Z) (m : Machine) :
  let tp := timeval_of_ms P (term_maybe_unbox_int64 (TInteger z)) in
  let tz := mkTimezone 0 0 in
  settimeofday_calls (os (snd (nif_set_time_of_day P [TInteger z] m)))
    = (tp, tz) :: settimeofday_calls (os m).
Proof.
  intros tp tz. subst tp tz.
  unfold nif_set_time_of_day, settimeofday, term_alloc_tuple,
    term_put_tuple_element. run.
  destruct (settimeofday_refusal P (os m) _ _) as [e|]; simpl; [|reflexivity].
  match goal with |- context [ensure_free_or_raise P ?s ?m0] =>
    pose proof (ensure_free_rest P s m0) as Hrest;
    destruct (ensure_free_or_raise P s m0) as [[[]|?] ?]
  end; simpl in *; destruct Hrest as (_ & -> & _); reflexivity.
Qed.

(** C6, as the code has it.  For every 64-bit integer [ms] whose quotient
    by 1000 fits [time_t], [set_time_of_day] hands the OS clock call the
    seconds [ms / 1000] rounded toward zero and the microseconds 1000 times
    the remainder that has the sign of [ms], with a zero timezone; for
    [ms >= 0] these are the floor quotient and the non-negative
    remainder. *)
Theorem set_time_of_day_split (P : Platform) (ms : Z) (m : Machine) :
  in_signed_range 64 ms ->
  in_signed_range (time_t_bits P) (Z.quot ms 1000) ->
  settimeofday_calls (os (snd (nif_set_time_of_day P [TInteger ms] m)))
    = (mkTimeval (Z.quot ms 1000) (Z.rem ms 1000 * 1000), mkTimezone 0 0)
      :: settimeofday_calls (os m) /\
  ((0 <= ms)%Z -> Z.quot ms 1000 = (ms / 1000)%Z /\ Z.rem ms 1000 = (ms mod 1000)%Z).
Proof.
  intros H64 Hfit. split.
  - rewrite set_time_of_day_calls_os. simpl.
    rewrite (wrap_signed_in_range 64 ms H64).
    unfold timeval_of_ms.
    destruct (int64_split_exact ms H64) as (-> & ->).
    now rewrite (wrap_signed_in_range _ _ Hfit).
  - intro Hpos. split.
    + apply Z.quot_div_nonneg; lia.
    + apply Z.rem_mod_nonneg; lia.
Qed.

Lemma set_time_of_day_split_witness :
  let ms := 1700000000000%Z in
  in_signed_range 64 ms /\
  in_signed_range (time_t_bits esp32) (Z.quot ms 1000) /\
  settimeofday_calls (os (snd (nif_set_time_of_day esp32 [TInteger ms] (fresh esp32))))
    = [(mkTimeval 1700000000 0, mkTimezone 0 0)].
Proof.
  intro ms.
  assert (H64 : in_signed_range 64 ms) by (vm_compute; split; [discriminate | reflexivity]).
  assert (Hfit : in_signed_range (time_t_bits esp32) (Z.quot ms 1000))
    by (vm_compute; split; [discriminate | reflexivity]).
  split; [exact H64|]. split; [exact Hfit|].
  exact (proj1 (set_time_of_day_split esp32 ms (fresh esp32) H64 Hfit)).
Defined.

(** C6, as stated, fails at [ms = -1]: the code passes 0 seconds and -1000
    microseconds, where floor division gives -1 second and 999000
    microseconds. *)
Lemma set_time_of_day_negative_not_floor :
  let passed :=
    hd_error (settimeofday_calls
                (os (snd (nif_set_time_of_day esp32 [TInteger (-1)] (fresh esp32))))) in
  passed = Some (mkTimeval 0 (-1000), mkTimezone 0 0) /\
  passed <> Some (mkTimeval (-1 / 1000) ((-1) mod 1000 * 1000), mkTimezone 0 0).
Proof.
  split; [vm_compute; reflexivity | vm_compute; discriminate].
Qed.

(** C7.  The claim has the tuple [{error, e}] handed back to the caller
    as a value when the OS clock call fails with [errno = e] and the
    heap-space check for the tuple succeeds.  The code builds that tuple,
    as the newest object of the heap, and then loses it on line 140: what
    the call returns is the bare atom [error], which is not the tuple,
    carries no error code, and is not a raised error either. *)
Theorem set_time_of_day_failure_loses_tuple
    (P : Platform) (z e : Z) (m : Machine) :
  settimeofday_refusal P (os m)
    (timeval_of_ms P (term_maybe_unbox_int64 (TInteger z))) (mkTimezone 0 0) = Some e ->
  heap_check_ok P (ctx m) (TUPLE_SIZE P 2) ->
  let r := nif_set_time_of_day P [TInteger z] m in
  let tuple := TTuple [TAtom ERROR_ATOM; TInteger e] in
  fst r = Return (TAtom ERROR_ATOM) /\
  fst r <> Return tuple /\
  (forall reason, fst r <> Raise reason) /\
  heap (ctx (snd r)) = tuple :: heap (snd (memory_ensure_free P (ctx m) (TUPLE_SIZE P 2))).
Proof.
  intros Hrefuse Hok r tuple. subst r tuple.
  unfold nif_set_time_of_day, settimeofday, term_alloc_tuple,
    term_put_tuple_element, return_RAISE_ERROR. run.
  simpl in Hrefuse. rewrite Hrefuse. simpl.
  match goal with |- context [ensure_free_or_raise P ?s ?m0] =>
    rewrite (ensure_free_ok P s m0 Hok)
  end.
  simpl. split; [reflexivity|]. split; [discriminate|].
  split; [intro reason; discriminate | reflexivity].
Qed.

Lemma set_time_of_day_failure_loses_tuple_witness :
  let r := nif_set_time_of_day esp32 [TInteger (-1)] (fresh esp32) in
  settimeofday_refusal esp32 (os (fresh esp32))
    (timeval_of_ms esp32 (term_maybe_unbox_int64 (TInteger (-1)))) (mkTimezone 0 0)
    = Some EINVAL /\
  heap_check_ok esp32 (ctx (fresh esp32)) (TUPLE_SIZE esp32 2) /\
  fst r = Return (TAtom ERROR_ATOM) /\
  heap (ctx (snd r)) = [TTuple [TAtom ERROR_ATOM; TInteger 22]].
Proof.
  intro r.
  assert (Hrefuse : settimeofday_refusal esp32 (os (fresh esp32))
            (timeval_of_ms esp32 (term_maybe_unbox_int64 (TInteger (-1))))
            (mkTimezone 0 0) = Some EINVAL) by (vm_compute; reflexivity).
  assert (Hok : heap_check_ok esp32 (ctx (fresh esp32)) (TUPLE_SIZE esp32 2))
    by reflexivity.
  split; [exact Hrefuse|]. split; [exact Hok|].
  destruct (set_time_of_day_failure_loses_tuple esp32 (-1) EINVAL (fresh esp32)
              Hrefuse Hok) as (E1 & _ & _ & E2).
  split; [exact E1 | exact E2].
Defined.

(** C8.  On every argument that is not an integer, [set_time_of_day]
    raises [badarg] and the machine is as before: no call of
    [settimeofday] is recorded and the wall clock is untouched. *)
Theorem set_time_of_day_rejects_non_integer
    (P : Platform) (t : term) (m : Machine) :
  term_is_any_integer t = false ->
  nif_set_time_of_day P [t] m = (Raise (TAtom BADARG_ATOM), m) /\
  settimeofday_calls (os (snd (nif_set_time_of_day P [t] m)))
    = settimeofday_calls (os m) /\
  wall_clock (os (snd (nif_set_time_of_day P [t] m))) = wall_clock (os m).
Proof.
  intro Hnot.
  assert (E : nif_set_time_of_day P [t] m = (Raise (TAtom BADARG_ATOM), m)).
  { unfold nif_set_time_of_day, bind, VALIDATE_VALUE.
    change (argv0 [t]) with t. rewrite Hnot. reflexivity. }
  rewrite E. auto.
Qed.

Lemma set_time_of_day_rejects_non_integer_witness :
  let t := TBinary [x31; x32] in
  term_is_any_integer t = false /\
  nif_set_time_of_day esp32 [t] (fresh esp32)
    = (Raise (TAtom BADARG_ATOM), fresh esp32).
Proof.
  intro t. split; [reflexivity|].
  exact (proj1 (set_time_of_day_rejects_non_integer esp32 t (fresh esp32) eq_refl)).
Defined.

(** * Further properties of the native functions *)

Lemma ensure_free_fails (P : Platform) (size : nat) (m : Machine) :
  fst (memory_ensure_free P (ctx m) size) = MEMORY_GC_ERROR_FAILED_ALLOCATION ->
  ensure_free_or_raise P size m =
    (Raise (TAtom OUT_OF_MEMORY_ATOM),
     mkMachine (snd (memory_ensure_free P (ctx m) size)) (rtc m) (os m) (efuse m)).
Proof.
  unfold ensure_free_or_raise.
  destruct (memory_ensure_free P (ctx m) size) as [[|] c]; simpl; intro H;
    [discriminate | reflexivity].
Qed.

Lemma reachable_bound (P : Platform) (m : Machine) :
  reachable P m -> data_len (rtc m) <= CONFIG_RTC_MEMORY_SIZE P.
Proof.
  intros (m0 & Hboot & Hsteps).
  induction Hsteps as [m0|m0 m1 m2 _ IH Hstep].
  - unfold boot in Hboot. rewrite Hboot. simpl. lia.
  - apply (step_bound _ _ _ Hstep). exact (IH Hboot).
Qed.

(** ** Registry *)

(** X1.  [atomvm_lib_get_nif] resolves a name to a function exactly when
    the name is the one that function is registered under, and to nothing
    exactly when the name is none of the five. *)
Theorem get_nif_exact (nifname : string) :
  (forall n, atomvm_lib_get_nif nifname = Some n <-> nifname = nif_name n) /\
  (atomvm_lib_get_nif nifname = None <-> forall n, nifname <> nif_name n).
Proof.
  assert (Hfwd : forall n, atomvm_lib_get_nif nifname = Some n -> nifname = nif_name n).
  { intro n. unfold atomvm_lib_get_nif.
    repeat match goal with
    | |- context [String.eqb ?a nifname] =>
        let E := fresh "E" in
        destruct (String.eqb a nifname) eqn:E;
        [apply String.eqb_eq in E; intro H; injection H as <-; now subst nifname|]
    end.
    discriminate. }
  assert (Hbwd : forall n, nifname = nif_name n -> atomvm_lib_get_nif nifname = Some n).
  { intros n ->. destruct n; reflexivity. }
  split.
  - intro n. split; [apply Hfwd | apply Hbwd].
  - split.
    + intros Hnone n Hn. rewrite (Hbwd n Hn) in Hnone. discriminate.
    + intro Hnot. pose proof Hfwd as Hf.
      destruct (atomvm_lib_get_nif nifname) as [n|]; [|reflexivity].
      exfalso. exact (Hnot n (Hf n eq_refl)).
Qed.

(** ** RTC memory *)

(** X2.  [set_rtc_memory] on an argument that is not a binary raises
    [badarg] and leaves the machine as it was. *)
Theorem set_rtc_memory_rejects_non_binary
    (P : Platform) (argv : list term) (m : Machine) :
  term_is_binary (argv0 argv) = false ->
  nif_set_rtc_memory P argv m = (Raise (TAtom BADARG_ATOM), m).
Proof.
  intro Hnot. unfold nif_set_rtc_memory, bind, VALIDATE_VALUE.
  rewrite Hnot. reflexivity.
Qed.

Lemma set_rtc_memory_rejects_non_binary_witness :
  term_is_binary (argv0 [TInteger 42]) = false /\
  nif_set_rtc_memory esp32 [TInteger 42] (fresh esp32)
    = (Raise (TAtom BADARG_ATOM), fresh esp32).
Proof.
  split; [reflexivity|].
  exact (set_rtc_memory_rejects_non_binary esp32 [TInteger 42] (fresh esp32) eq_refl).
Defined.

(** X3.  Whatever its argument, [set_rtc_memory] neither touches the
    context (it builds nothing on the heap) nor the operating system nor
    eFuse, and the only value it ever returns is [ok]. *)
Theorem set_rtc_memory_writes_rtc_only
    (P : Platform) (argv : list term) (m : Machine) (t : term) :
  fst (nif_set_rtc_memory P argv m) = Return t ->
  t = TAtom OK_ATOM /\
  ctx (snd (nif_set_rtc_memory P argv m)) = ctx m /\
  os (snd (nif_set_rtc_memory P argv m)) = os m /\
  efuse (snd (nif_set_rtc_memory P argv m)) = efuse m.
Proof.
  intro Hret.
  destruct (set_rtc_memory_frame P argv m) as (Hc & Ho & He & _).
  split; [|auto].
  revert Hret. unfold nif_set_rtc_memory. run.
  destruct (term_is_binary (argv0 argv)); simpl; [|discriminate].
  destruct (CONFIG_RTC_MEMORY_SIZE P <? term_binary_size (argv0 argv)); simpl;
    [discriminate|].
  intro H. now injection H.
Qed.

Lemma set_rtc_memory_writes_rtc_only_witness :
  let argv := [TBinary [x01; x02]] in
  let m := snd (nif_sha1 esp32 [TBinary []] (fresh esp32)) in
  fst (nif_set_rtc_memory esp32 argv m) = Return (TAtom OK_ATOM) /\
  ctx (snd (nif_set_rtc_memory esp32 argv m)) = ctx m.
Proof.
  intros argv m.
  assert (H : fst (nif_set_rtc_memory esp32 argv m) = Return (TAtom OK_ATOM))
    by reflexivity.
  split; [exact H|].
  exact (proj1 (proj2 (set_rtc_memory_writes_rtc_only esp32 argv m _ H))).
Defined.

(** X4.  An accepted [set_rtc_memory(b)] overwrites the first [length b]
    bytes of [data] and nothing else: every byte of the array at an index
    from [length b] on is the byte that was there before the call. *)
Theorem set_rtc_memory_keeps_tail
    (P : Platform) (b : list byte) (m : Machine) (i : nat) :
  length b <= CONFIG_RTC_MEMORY_SIZE P ->
  length b <= i ->
  let m' := snd (nif_set_rtc_memory P [TBinary b] m) in
  firstn (length b) (data (rtc m')) = b /\
  nth i (data (rtc m')) x00 = nth i (data (rtc m)) x00.
Proof.
  intros Hfit Hi m'. subst m'.
  rewrite (set_rtc_memory_accepts P b m Hfit). simpl.
  split; [apply memcpy_whole|].
  unfold memcpy. rewrite firstn_all, app_nth2 by lia.
  rewrite nth_skipn. f_equal. lia.
Qed.

Lemma set_rtc_memory_keeps_tail_witness :
  let m1 := snd (nif_set_rtc_memory esp32 [TBinary [x01; x02; x03]] (fresh esp32)) in
  let m2 := snd (nif_set_rtc_memory esp32 [TBinary [x09]] m1) in
  length [x09] <= CONFIG_RTC_MEMORY_SIZE esp32 /\
  length [x09] <= 2 /\
  nth 2 (data (rtc m1)) x00 = x03 /\
  nth 2 (data (rtc m2)) x00 = x03.
Proof.
  intros m1 m2.
  assert (Hfit : length [x09] <= CONFIG_RTC_MEMORY_SIZE esp32) by (simpl; lia).
  assert (Hi : length [x09] <= 2) by (simpl; lia).
  split; [exact Hfit|]. split; [exact Hi|]. split; [reflexivity|].
  exact (eq_trans (proj2 (set_rtc_memory_keeps_tail esp32 [x09] m1 2 Hfit Hi))
                  eq_refl).
Defined.

(** X5.  In every state reachable from boot the array [data] has the size
    it was declared with and [data_len] does not pass its end, so
    [get_rtc_memory], its heap-space check succeeding, returns a binary of
    exactly [data_len] bytes, read inside the array. *)
Theorem rtc_store_well_formed (P : Platform) (argv : list term) (m : Machine) :
  reachable P m ->
  length (data (rtc m)) = DATA_BYTES P /\
  data_len (rtc m) <= length (data (rtc m)) /\
  (heap_check_ok P (ctx m) (term_binary_heap_size P (data_len (rtc m))) ->
   exists bs,
     fst (nif_get_rtc_memory P argv m) = Return (TBinary bs) /\
     length bs = data_len (rtc m)).
Proof.
  intro R.
  pose proof (rtc_data_size P m R) as Hsize.
  pose proof (reachable_bound P m R) as Hle.
  assert (Hin : data_len (rtc m) <= length (data (rtc m))).
  { rewrite Hsize. unfold DATA_BYTES, SIZEOF_POINTER. lia. }
  split; [exact Hsize|]. split; [exact Hin|].
  intro Hok. eexists. split; [apply (get_rtc_memory_returns P argv m Hok)|].
  rewrite length_firstn. lia.
Qed.

Lemma rtc_store_well_formed_witness :
  let m := snd (nif_set_rtc_memory esp32 [TBinary [x0a; x0b; x0c]] (fresh esp32)) in
  reachable esp32 m /\
  length (data (rtc m)) = 256 /\
  data_len (rtc m) = 3.
Proof.
  intro m.
  assert (R : reachable esp32 m).
  { exists (fresh esp32). split; [reflexivity|].
    apply steps_cons with (m2 := fresh esp32); [apply steps_refl|].
    exact (step_call esp32 set_rtc_memory_nif [TBinary [x0a; x0b; x0c]] (fresh esp32)). }
  split; [exact R|]. split; [|reflexivity].
  exact (proj1 (rtc_store_well_formed esp32 [] m R)).
Defined.

(** X6.  When the heap-space check of [get_rtc_memory] fails, the call
    raises [out_of_memory]; no binary is built (the heap is the one the
    collector left) and the RTC globals, the operating system and eFuse
    are as before. *)
Theorem get_rtc_memory_out_of_memory
    (P : Platform) (argv : list term) (m : Machine) :
  let size := term_binary_heap_size P (data_len (rtc m)) in
  fst (memory_ensure_free P (ctx m) size) = MEMORY_GC_ERROR_FAILED_ALLOCATION ->
  nif_get_rtc_memory P argv m =
    (Raise (TAtom OUT_OF_MEMORY_ATOM),
     mkMachine (snd (memory_ensure_free P (ctx m) size)) (rtc m) (os m) (efuse m)).
Proof.
  intros size Hfail. unfold nif_get_rtc_memory. run.
  fold size. rewrite (ensure_free_fails P size m Hfail). reflexivity.
Qed.

Lemma get_rtc_memory_out_of_memory_witness :
  let P := esp32_no_heap in
  let m := snd (nif_set_rtc_memory P [TBinary [x01]] (fresh P)) in
  fst (memory_ensure_free P (ctx m) (term_binary_heap_size P (data_len (rtc m))))
    = MEMORY_GC_ERROR_FAILED_ALLOCATION /\
  nif_get_rtc_memory P [] m = (Raise (TAtom OUT_OF_MEMORY_ATOM), m).
Proof.
  intros P m. split; [reflexivity|].
  exact (get_rtc_memory_out_of_memory P [] m eq_refl).
Defined.

(** X7.  Reading is not destructive: [get_rtc_memory] leaves the RTC
    globals as they are, whether it returns or raises, and a second call,
    both heap-space checks succeeding, returns the very bytes the first
    one returned. *)
Theorem get_rtc_memory_repeatable
    (P : Platform) (argv argv' : list term) (m : Machine) :
  let size := term_binary_heap_size P (data_len (rtc m)) in
  let m1 := snd (nif_get_rtc_memory P argv m) in
  rtc m1 = rtc m /\
  (heap_check_ok P (ctx m) size -> heap_check_ok P (ctx m1) size ->
   fst (nif_get_rtc_memory P argv' m1) = fst (nif_get_rtc_memory P argv m)).
Proof.
  intros size m1.
  assert (Hrtc : rtc m1 = rtc m) by apply get_rtc_memory_frame.
  split; [exact Hrtc|]. intros Hok Hok1.
  rewrite (get_rtc_memory_returns P argv m Hok).
  rewrite get_rtc_memory_returns; rewrite Hrtc; [reflexivity | exact Hok1].
Qed.

(** X8.  A successful [get_rtc_memory] builds exactly one object: the heap
    after the call is the returned binary on top of the heap the space
    check left, and the operating system is untouched. *)
Theorem get_rtc_memory_builds_one_binary
    (P : Platform) (argv : list term) (m : Machine) :
  let size := term_binary_heap_size P (data_len (rtc m)) in
  heap_check_ok P (ctx m) size ->
  exists t,
    fst (nif_get_rtc_memory P argv m) = Return t /\
    heap (ctx (snd (nif_get_rtc_memory P argv m)))
      = t :: heap (snd (memory_ensure_free P (ctx m) size)) /\
    os (snd (nif_get_rtc_memory P argv m)) = os m.
Proof.
  intros size Hok. unfold nif_get_rtc_memory. run. fold size.
  rewrite (ensure_free_ok P size m Hok). simpl.
  eexists. repeat split.
Qed.

Lemma get_rtc_memory_builds_one_binary_witness :
  let m := snd (nif_set_rtc_memory esp32 [TBinary [x01; x02]] (fresh esp32)) in
  heap_check_ok esp32 (ctx m) (term_binary_heap_size esp32 (data_len (rtc m))) /\
  exists t,
    fst (nif_get_rtc_memory esp32 [] m) = Return t /\
    heap (ctx (snd (nif_get_rtc_memory esp32 [] m))) = [t].
Proof.
  intro m.
  assert (Hok : heap_check_ok esp32 (ctx m)
                  (term_binary_heap_size esp32 (data_len (rtc m)))) by reflexivity.
  split; [exact Hok|].
  destruct (get_rtc_memory_builds_one_binary esp32 [] m Hok) as (t & E1 & E2 & _).
  exists t. split; [exact E1 | exact E2].
Defined.

(** X9.  Only [set_rtc_memory] writes the RTC globals: a call of any of
    the other four functions, on any arguments and whatever its outcome,
    leaves [data_len], [data] and eFuse as they were. *)
Theorem only_set_writes_rtc
    (P : Platform) (n : Nif) (argv : list term) (m : Machine) :
  n <> set_rtc_memory_nif ->
  rtc (snd (nif_ptr P n argv m)) = rtc m /\
  efuse (snd (nif_ptr P n argv m)) = efuse m.
Proof.
  intro Hn. split; [now apply other_nifs_keep_rtc|].
  apply step_efuse with (P := P). apply step_call.
Qed.

Lemma only_set_writes_rtc_witness :
  let m := snd (nif_set_rtc_memory esp32 [TBinary [x07; x08]] (fresh esp32)) in
  sha1_nif <> set_rtc_memory_nif /\
  rtc (snd (nif_ptr esp32 sha1_nif [TBinary [x61]] m)) = mkRtc 2 (data (rtc m)).
Proof.
  intro m.
  assert (Hn : sha1_nif <> set_rtc_memory_nif) by discriminate.
  split; [exact Hn|].
  exact (proj1 (only_set_writes_rtc esp32 sha1_nif [TBinary [x61]] m Hn)).
Defined.

Lemma get_rtc_memory_repeatable_witness :
  let m := snd (nif_set_rtc_memory esp32 [TBinary [x05; x06]] (fresh esp32)) in
  let m1 := snd (nif_get_rtc_memory esp32 [] m) in
  rtc m1 = rtc m /\
  fst (nif_get_rtc_memory esp32 [] m1) = Return (TBinary [x05; x06]).
Proof.
  intros m m1.
  destruct (get_rtc_memory_repeatable esp32 [] [] m) as (E & H).
  split; [exact E|].
  exact (eq_trans (H eq_refl eq_refl) eq_refl).
Defined.

(** ** Identity query *)

Lemma unhex_fmt_02x (b : byte) : unhex (fmt_02x b) = b.
Proof. destruct b; vm_compute; reflexivity. Qed.

Lemma fmt_02x_injective (b b' : byte) : fmt_02x b = fmt_02x b' -> b = b'.
Proof.
  intro H. rewrite <- (unhex_fmt_02x b), <- (unhex_fmt_02x b'). now rewrite H.
Qed.

(** X10.  The string [get_mac] returns determines the address: two
    machines on which [get_mac] returns the same twelve characters hold
    the same six bytes in eFuse. *)
Theorem get_mac_injective
    (P : Platform) (argv argv' : list term) (m m' : Machine) :
  heap_check_ok P (ctx m) (term_binary_heap_size P (2 * MAC_LENGTH)) ->
  heap_check_ok P (ctx m') (term_binary_heap_size P (2 * MAC_LENGTH)) ->
  fst (nif_get_mac P argv m) = fst (nif_get_mac P argv' m') ->
  efuse m = efuse m'.
Proof.
  intros Hok Hok'.
  rewrite (get_mac_returns P argv m Hok), (get_mac_returns P argv' m' Hok').
  destruct (efuse m) as [a0 a1 a2 a3 a4 a5], (efuse m') as [b0 b1 b2 b3 b4 b5].
  cbn [mac0 mac1 mac2 mac3 mac4 mac5].
  intro H. unfold fmt_02x in H. cbn [app] in H.
  injection H as H0 H0' H1 H1' H2 H2' H3 H3' H4 H4' H5 H5'.
  f_equal; apply fmt_02x_injective; unfold fmt_02x; congruence.
Qed.

Lemma get_mac_injective_witness :
  let m := fresh esp32 in
  let m' := snd (nif_get_mac esp32 [] (fresh esp32)) in
  heap_check_ok esp32 (ctx m) (term_binary_heap_size esp32 (2 * MAC_LENGTH)) /\
  heap_check_ok esp32 (ctx m') (term_binary_heap_size esp32 (2 * MAC_LENGTH)) /\
  fst (nif_get_mac esp32 [] m) = fst (nif_get_mac esp32 [] m') /\
  efuse m = efuse m'.
Proof.
  intros m m'.
  assert (Hok : heap_check_ok esp32 (ctx m)
                  (term_binary_heap_size esp32 (2 * MAC_LENGTH))) by reflexivity.
  assert (Hok' : heap_check_ok esp32 (ctx m')
                   (term_binary_heap_size esp32 (2 * MAC_LENGTH))) by reflexivity.
  assert (E : fst (nif_get_mac esp32 [] m) = fst (nif_get_mac esp32 [] m'))
    by reflexivity.
  split; [exact Hok|]. split; [exact Hok'|]. split; [exact E|].
  exact (get_mac_injective esp32 [] [] m m' Hok Hok' E).
Defined.

(** X11.  When the heap-space check of [get_mac] fails, the call raises
    [out_of_memory] and builds nothing; when it succeeds, the heap after
    the call is the returned binary on top of the heap the check left.
    Either way the RTC globals and the operating system are untouched. *)
Theorem get_mac_heap_discipline
    (P : Platform) (argv : list term) (m : Machine) :
  let size := term_binary_heap_size P (2 * MAC_LENGTH) in
  let checked := snd (memory_ensure_free P (ctx m) size) in
  let m' := snd (nif_get_mac P argv m) in
  rtc m' = rtc m /\ os m' = os m /\
  (fst (memory_ensure_free P (ctx m) size) = MEMORY_GC_ERROR_FAILED_ALLOCATION ->
   fst (nif_get_mac P argv m) = Raise (TAtom OUT_OF_MEMORY_ATOM) /\
   heap (ctx m') = heap checked) /\
  (heap_check_ok P (ctx m) size ->
   exists t, fst (nif_get_mac P argv m) = Return t /\
             heap (ctx m') = t :: heap checked).
Proof.
  intros size checked m'. subst m' checked size.
  change (2 * MAC_LENGTH) with 12.
  unfold nif_get_mac, esp_efuse_mac_get_default. run.
  unfold heap_check_ok, ensure_free_or_raise.
  destruct (memory_ensure_free P (ctx m) (term_binary_heap_size P 12)) as [[|] c];
    run; repeat split; try discriminate; intros _; eauto.
Qed.

Lemma get_mac_heap_discipline_witness :
  let P := esp32_no_heap in
  fst (memory_ensure_free P (ctx (fresh P)) (term_binary_heap_size P (2 * MAC_LENGTH)))
    = MEMORY_GC_ERROR_FAILED_ALLOCATION /\
  fst (nif_get_mac P [] (fresh P)) = Raise (TAtom OUT_OF_MEMORY_ATOM) /\
  heap (ctx (snd (nif_get_mac P [] (fresh P)))) = [].
Proof.
  intro P. split; [reflexivity|].
  destruct (get_mac_heap_discipline P [] (fresh P)) as (_ & _ & H & _).
  exact (H eq_refl).
Defined.

(** ** Digest *)

(** X12.  [sha1] on an argument that is not a binary raises [badarg]
    before the heap-space check: the machine, context included, is as it
    was. *)
Theorem sha1_rejects_non_binary (P : Platform) (argv : list term) (m : Machine) :
  term_is_binary (argv0 argv) = false ->
  nif_sha1 P argv m = (Raise (TAtom BADARG_ATOM), m).
Proof.
  intro Hnot. unfold nif_sha1, bind, VALIDATE_VALUE. rewrite Hnot. reflexivity.
Qed.

Lemma sha1_rejects_non_binary_witness :
  term_is_binary (argv0 [TAtom OK_ATOM]) = false /\
  nif_sha1 esp32_no_heap [TAtom OK_ATOM] (fresh esp32_no_heap)
    = (Raise (TAtom BADARG_ATOM), fresh esp32_no_heap).
Proof.
  split; [reflexivity|].
  exact (sha1_rejects_non_binary esp32_no_heap [TAtom OK_ATOM]
           (fresh esp32_no_heap) eq_refl).
Defined.

(** X13.  When the heap-space check of [sha1] fails on a binary, the call
    raises [out_of_memory]: no output binary is built, and the RTC
    globals, the operating system and eFuse are as before. *)
Theorem sha1_out_of_memory (P : Platform) (b : list byte) (m : Machine) :
  let size := term_binary_heap_size P SHA1_LEN in
  fst (memory_ensure_free P (ctx m) size) = MEMORY_GC_ERROR_FAILED_ALLOCATION ->
  nif_sha1 P [TBinary b] m =
    (Raise (TAtom OUT_OF_MEMORY_ATOM),
     mkMachine (snd (memory_ensure_free P (ctx m) size)) (rtc m) (os m) (efuse m)).
Proof.
  intros size Hfail. unfold nif_sha1. run.
  fold size. rewrite (ensure_free_fails P size m Hfail). reflexivity.
Qed.

Lemma sha1_out_of_memory_witness :
  let P := esp32_no_heap in
  fst (memory_ensure_free P (ctx (fresh P)) (term_binary_heap_size P SHA1_LEN))
    = MEMORY_GC_ERROR_FAILED_ALLOCATION /\
  nif_sha1 P [TBinary [x61; x62; x63]] (fresh P)
    = (Raise (TAtom OUT_OF_MEMORY_ATOM), fresh P).
Proof.
  intro P. split; [reflexivity|].
  exact (sha1_out_of_memory P [x61; x62; x63] (fresh P) eq_refl).
Defined.

(** X14.  Whatever the digest engine writes, if it reports success then
    [sha1] returns a binary of exactly 20 bytes, which is the one object
    the call has built on the heap; the RTC globals and the operating
    system are untouched. *)
Theorem sha1_success_builds_twenty_bytes
    (P : Platform) (b : list byte) (m : Machine) :
  let size := term_binary_heap_size P SHA1_LEN in
  heap_check_ok P (ctx m) size ->
  fst (mbedtls_sha1_ret P b (uninitialized P SHA1_LEN)) = 0%Z ->
  exists d,
    fst (nif_sha1 P [TBinary b] m) = Return (TBinary d) /\
    length d = 20 /\
    heap (ctx (snd (nif_sha1 P [TBinary b] m)))
      = TBinary d :: heap (snd (memory_ensure_free P (ctx m) size)) /\
    rtc (snd (nif_sha1 P [TBinary b] m)) = rtc m /\
    os (snd (nif_sha1 P [TBinary b] m)) = os m.
Proof.
  intros size Hok Hres.
  rewrite (sha1_after_check P b m Hok). rewrite Hres. simpl.
  eexists. split; [reflexivity|].
  split; [now rewrite poke_length, uninitialized_length|].
  repeat split.
Qed.

Lemma sha1_success_builds_twenty_bytes_witness :
  let P := esp32 in
  heap_check_ok P (ctx (fresh P)) (term_binary_heap_size P SHA1_LEN) /\
  fst (mbedtls_sha1_ret P [x61] (uninitialized P SHA1_LEN)) = 0%Z /\
  exists d,
    fst (nif_sha1 P [TBinary [x61]] (fresh P)) = Return (TBinary d) /\
    length d = 20 /\
    heap (ctx (snd (nif_sha1 P [TBinary [x61]] (fresh P)))) = [TBinary d].
Proof.
  intro P.
  assert (Hok : heap_check_ok P (ctx (fresh P)) (term_binary_heap_size P SHA1_LEN))
    by reflexivity.
  assert (Hres : fst (mbedtls_sha1_ret P [x61] (uninitialized P SHA1_LEN)) = 0%Z)
    by reflexivity.
  split; [exact Hok|]. split; [exact Hres|].
  destruct (sha1_success_builds_twenty_bytes P [x61] (fresh P) Hok Hres)
    as (d & E1 & E2 & E3 & _).
  exists d. split; [exact E1|]. split; [exact E2 | exact E3].
Defined.

(** ** Clock control *)

(** X15.  When the operating system accepts the value, [set_time_of_day]
    returns [ok] without any heap-space check: the context and the RTC
    globals are untouched, [errno] is as before, and exactly one call of
    [settimeofday] has been made, with a zero timezone. *)
Theorem set_time_of_day_success (P : Platform) (z : Z) (m : Machine) :
  let tp := timeval_of_ms P (term_maybe_unbox_int64 (TInteger z)) in
  let tz := mkTimezone 0 0 in
  settimeofday_refusal P (os m) tp tz = None ->
  nif_set_time_of_day P [TInteger z] m =
    (Return (TAtom OK_ATOM),
     mkMachine (ctx m) (rtc m)
       (mkOs tp (errno (os m)) ((tp, tz) :: settimeofday_calls (os m)))
       (efuse m)).
Proof.
  intros tp tz Hacc. subst tp tz.
  unfold nif_set_time_of_day, settimeofday. run.
  simpl in Hacc. rewrite Hacc. reflexivity.
Qed.

Lemma set_time_of_day_success_witness :
  let z := 1700000000123%Z in
  settimeofday_refusal esp32 (os (fresh esp32))
    (timeval_of_ms esp32 (term_maybe_unbox_int64 (TInteger z))) (mkTimezone 0 0) = None /\
  fst (nif_set_time_of_day esp32 [TInteger z] (fresh esp32)) = Return (TAtom OK_ATOM) /\
  wall_clock (os (snd (nif_set_time_of_day esp32 [TInteger z] (fresh esp32))))
    = mkTimeval 1700000000 123000.
Proof.
  intro z.
  assert (Hacc : settimeofday_refusal esp32 (os (fresh esp32))
            (timeval_of_ms esp32 (term_maybe_unbox_int64 (TInteger z)))
            (mkTimezone 0 0) = None) by (vm_compute; reflexivity).
  split; [exact Hacc|].
  rewrite (set_time_of_day_success esp32 z (fresh esp32) Hacc).
  split; vm_compute; reflexivity.
Defined.

(** X16.  When the operating system refuses the value and the heap-space
    check for the error tuple fails too, [set_time_of_day] raises
    [out_of_memory]: the error code is not reported, no tuple is built,
    yet the call of [settimeofday] has been made and [errno] holds the
    code. *)
Theorem set_time_of_day_error_code_lost
    (P : Platform) (z e : Z) (m : Machine) :
  let tp := timeval_of_ms P (term_maybe_unbox_int64 (TInteger z)) in
  let tz := mkTimezone 0 0 in
  let m' := snd (nif_set_time_of_day P [TInteger z] m) in
  settimeofday_refusal P (os m) tp tz = Some e ->
  fst (memory_ensure_free P (ctx m) (TUPLE_SIZE P 2)) = MEMORY_GC_ERROR_FAILED_ALLOCATION ->
  fst (nif_set_time_of_day P [TInteger z] m) = Raise (TAtom OUT_OF_MEMORY_ATOM) /\
  heap (ctx m') = heap (snd (memory_ensure_free P (ctx m) (TUPLE_SIZE P 2))) /\
  errno (os m') = e /\
  settimeofday_calls (os m') = (tp, tz) :: settimeofday_calls (os m).
Proof.
  intros tp tz m' Hrefuse Hfail. subst m' tp tz.
  unfold nif_set_time_of_day, settimeofday, term_alloc_tuple,
    term_put_tuple_element. run.
  simpl in Hrefuse. rewrite Hrefuse. simpl.
  match goal with |- context [ensure_free_or_raise P ?s ?m0] =>
    rewrite (ensure_free_fails P s m0 Hfail)
  end.
  simpl. repeat split.
Qed.

Lemma set_time_of_day_error_code_lost_witness :
  let P := esp32_no_heap in
  settimeofday_refusal P (os (fresh P))
    (timeval_of_ms P (term_maybe_unbox_int64 (TInteger (-1)))) (mkTimezone 0 0)
    = Some EINVAL /\
  fst (memory_ensure_free P (ctx (fresh P)) (TUPLE_SIZE P 2))
    = MEMORY_GC_ERROR_FAILED_ALLOCATION /\
  fst (nif_set_time_of_day P [TInteger (-1)] (fresh P)) = Raise (TAtom OUT_OF_MEMORY_ATOM) /\
  errno (os (snd (nif_set_time_of_day P [TInteger (-1)] (fresh P)))) = 22%Z.
Proof.
  intro P.
  assert (Hrefuse : settimeofday_refusal P (os (fresh P))
            (timeval_of_ms P (term_maybe_unbox_int64 (TInteger (-1))))
            (mkTimezone 0 0) = Some EINVAL) by (vm_compute; reflexivity).
  assert (Hfail : fst (memory_ensure_free P (ctx (fresh P)) (TUPLE_SIZE P 2))
                  = MEMORY_GC_ERROR_FAILED_ALLOCATION) by reflexivity.
  split; [exact Hrefuse|]. split; [exact Hfail|].
  destruct (set_time_of_day_error_code_lost P (-1) EINVAL (fresh P) Hrefuse Hfail)
    as (E1 & _ & E2 & _).
  split; [exact E1 | exact E2].
Defined.

(** X17.  [set_time_of_day] ends in one of four ways and no other: it
    returns [ok], it returns the bare atom [error], it raises [badarg] or
    it raises [out_of_memory].  It returns only on an integer argument and
    after exactly one call of [settimeofday]: [ok] when the operating
    system accepted the value, [error] when it refused it.  The tuple
    that carries the error code is never what the caller gets. *)
Theorem set_time_of_day_outcomes
    (P : Platform) (argv : list term) (m : Machine) :
  let r := nif_set_time_of_day P argv m in
  let tp := timeval_of_ms P (term_maybe_unbox_int64 (argv0 argv)) in
  (fst r = Return (TAtom OK_ATOM) \/ fst r = Return (TAtom ERROR_ATOM) \/
   fst r = Raise (TAtom BADARG_ATOM) \/ fst r = Raise (TAtom OUT_OF_MEMORY_ATOM)) /\
  (forall t, fst r = Return t ->
     term_is_any_integer (argv0 argv) = true /\
     length (settimeofday_calls (os (snd r))) = S (length (settimeofday_calls (os m))) /\
     (t = TAtom OK_ATOM <-> settimeofday_refusal P (os m) tp (mkTimezone 0 0) = None)).
Proof.
  intros r tp. subst r tp.
  unfold nif_set_time_of_day, settimeofday, term_alloc_tuple,
    term_put_tuple_element, return_RAISE_ERROR. run.
  destruct (term_is_any_integer (argv0 argv)); simpl;
    [|split; [auto | intros t Ht; discriminate]].
  destruct (settimeofday_refusal P (os m) _ _) as [e|]; simpl.
  - match goal with |- context [ensure_free_or_raise P ?s ?m0] =>
      pose proof (ensure_free_rest P s m0) as Hrest;
      unfold ensure_free_or_raise in *;
      destruct (memory_ensure_free P (ctx m0) s) as [[|] c]
    end; simpl in *.
    + split; [auto|]. intros t Ht. injection Ht as <-.
      repeat split; try discriminate.
    + split; [auto|]. intros t Ht. discriminate.
  - split; [auto|]. intros t Ht. injection Ht as <-. repeat split.
Qed.

Lemma set_time_of_day_outcomes_witness :
  let r := nif_set_time_of_day esp32 [TInteger (-1)] (fresh esp32) in
  fst r = Return (TAtom ERROR_ATOM) /\
  term_is_any_integer (argv0 [TInteger (-1)]) = true /\
  length (settimeofday_calls (os (snd r))) = 1.
Proof.
  intro r.
  assert (H : fst r = Return (TAtom ERROR_ATOM)) by (vm_compute; reflexivity).
  split; [exact H|].
  destruct (proj2 (set_time_of_day_outcomes esp32 [TInteger (-1)] (fresh esp32)) _ H)
    as (E1 & E2 & _).
  split; [exact E1 | exact E2].
Defined.

(** X18.  The split loses nothing: for every 64-bit [ms] whose quotient
    fits [time_t], seconds times 1000000 plus microseconds is [ms] times
    1000, and the microseconds lie strictly between -1000000 and 1000000.
    They are negative, which no valid [timeval] allows, exactly when
    [ms] is negative and not a multiple of 1000. *)
Theorem timeval_of_ms_exact (P : Platform) (ms : Z) :
  in_signed_range 64 ms ->
  in_signed_range (time_t_bits P) (Z.quot ms 1000) ->
  let tp := timeval_of_ms P ms in
  (tv_sec tp * 1000000 + tv_usec tp = ms * 1000)%Z /\
  (-1000000 < tv_usec tp < 1000000)%Z /\
  ((tv_usec tp < 0)%Z <-> (ms < 0)%Z /\ Z.rem ms 1000 <> 0%Z).
Proof.
  intros H64 Hfit tp. subst tp. unfold timeval_of_ms. simpl.
  destruct (int64_split_exact ms H64) as (-> & ->).
  rewrite (wrap_signed_in_range _ _ Hfit).
  pose proof (Z.quot_rem' ms 1000) as Hqr.
  pose proof (Z.rem_bound_abs ms 1000) as Hr.
  pose proof (Z.rem_sign_mul ms 1000) as Hs.
  split; [lia|]. split; [lia|].
  split.
  - intro Hneg. split; [nia | lia].
  - intros (Hms & Hnz). nia.
Qed.

Lemma timeval_of_ms_exact_witness :
  let ms := (-1500)%Z in
  in_signed_range 64 ms /\
  in_signed_range (time_t_bits esp32) (Z.quot ms 1000) /\
  timeval_of_ms esp32 ms = mkTimeval (-1) (-500000) /\
  (tv_sec (timeval_of_ms esp32 ms) * 1000000 + tv_usec (timeval_of_ms esp32 ms)
   = ms * 1000)%Z.
Proof.
  intro ms.
  assert (H64 : in_signed_range 64 ms)
    by (vm_compute; split; [discriminate | reflexivity]).
  assert (Hfit : in_signed_range (time_t_bits esp32) (Z.quot ms 1000))
    by (vm_compute; split; [discriminate | reflexivity]).
  split; [exact H64|]. split; [exact Hfit|]. split; [vm_compute; reflexivity|].
  exact (proj1 (timeval_of_ms_exact esp32 ms H64 Hfit)).
Defined.

(** ** Persistence of the store *)

Lemma set_rtc_memory_rejected_keeps_machine
    (P : Platform) (argv : list term) (m : Machine) :
  negb (term_is_binary (argv0 argv))
  || (CONFIG_RTC_MEMORY_SIZE P <? term_binary_size (argv0 argv)) = true ->
  snd (nif_set_rtc_memory P argv m) = m.
Proof.
  intro H. unfold nif_set_rtc_memory. run.
  destruct (term_is_binary (argv0 argv)); simpl in *; [|reflexivity].
  rewrite H. reflexivity.
Qed.

(** X19.  What an accepted [set_rtc_memory(b)] stored stays: after any
    sequence of calls none of which is an accepted [set_rtc_memory]
    (calls of the other four functions, [set_rtc_memory] on a non-binary
    or on an oversize binary, whatever their outcomes), the RTC globals
    are unchanged and [get_rtc_memory], its heap-space check succeeding,
    returns [b]. *)
Theorem stored_bytes_persist
    (P : Platform) (b : list byte) (calls : list (Nif * list term))
    (argv : list term) (m : Machine) :
  length b <= CONFIG_RTC_MEMORY_SIZE P ->
  forallb (not_an_accepted_set P) calls = true ->
  let m1 := snd (nif_set_rtc_memory P [TBinary b] m) in
  let m2 := run_calls P calls m1 in
  heap_check_ok P (ctx m2) (term_binary_heap_size P (length b)) ->
  rtc m2 = rtc m1 /\
  fst (nif_get_rtc_memory P argv m2) = Return (TBinary b).
Proof.
  intros Hfit Hcalls m1 m2 Hok.
  assert (Hkeep : forall m0, rtc (run_calls P calls m0) = rtc m0).
  { clear Hok m2. induction calls as [|[n args] rest IH]; intro m0; [reflexivity|].
    simpl in Hcalls. apply andb_prop in Hcalls as (Hc & Hrest).
    simpl. rewrite (IH Hrest).
    unfold not_an_accepted_set in Hc. simpl in Hc.
    destruct n; simpl in Hc |- *;
      try apply get_rtc_memory_frame; try apply get_mac_frame;
      try apply sha1_frame; try apply set_time_of_day_frame.
    now rewrite set_rtc_memory_rejected_keeps_machine. }
  assert (Hrtc : rtc m2 = rtc m1) by apply Hkeep.
  split; [exact Hrtc|].
  assert (E : rtc m1 = mkRtc (length b) (memcpy (data (rtc m)) b (length b))).
  { subst m1. now rewrite (set_rtc_memory_accepts P b m Hfit). }
  rewrite get_rtc_memory_returns; rewrite Hrtc, E; simpl; [|exact Hok].
  now rewrite memcpy_whole.
Qed.

Lemma stored_bytes_persist_witness :
  let b := [x68; x69] in
  let calls :=
    [(sha1_nif, [TBinary [x61]]);
     (set_rtc_memory_nif, [TBinary (repeat xff 65)]);
     (set_time_of_day_nif, [TInteger (-1)]);
     (set_rtc_memory_nif, [TAtom OK_ATOM]);
     (get_mac_nif, [])] in
  let m2 := run_calls esp32 calls
              (snd (nif_set_rtc_memory esp32 [TBinary b] (fresh esp32))) in
  length b <= CONFIG_RTC_MEMORY_SIZE esp32 /\
  forallb (not_an_accepted_set esp32) calls = true /\
  heap_check_ok esp32 (ctx m2) (term_binary_heap_size esp32 (length b)) /\
  fst (nif_get_rtc_memory esp32 [] m2) = Return (TBinary b).
Proof.
  intros b calls m2.
  assert (Hfit : length b <= CONFIG_RTC_MEMORY_SIZE esp32) by (simpl; lia).
  assert (Hcalls : forallb (not_an_accepted_set esp32) calls = true) by reflexivity.
  assert (Hok : heap_check_ok esp32 (ctx m2) (term_binary_heap_size esp32 (length b)))
    by reflexivity.
  split; [exact Hfit|]. split; [exact Hcalls|]. split; [exact Hok|].
  exact (proj2 (stored_bytes_persist esp32 b calls [] (fresh esp32) Hfit Hcalls Hok)).
Defined.
